(** * dynamodbHelper.js: a wrapper around the AWS DynamoDB document client

    A shallow embedding of [src/dynamodbHelper.js] (the current revision,
    lines 239-584, and [putItem] of the first revision, lines 30-69) and the
    properties of its request building and error classification.

    JavaScript values are modelled as JSON-like data, promises by their
    settlement (the first [resolve] or [reject] wins), the document client
    as an injected function from request documents to callback arguments,
    and every call made on it is recorded. *)

From stdpp Require Import base option list strings pretty gmap.

Open Scope string_scope.
Open Scope Z_scope.
Open Scope list_scope.

(** ** JavaScript values *)

(** The data the helper receives: what a caller can write as a JSON-like
    literal, plus [undefined].  Numbers are the integers.  An object carries
    its own enumerable properties in enumeration order. *)
#[warnings="-register-all"]
Inductive value : Type :=
| Undefined
| Null
| Bool (b : bool)
| Num (z : Z)
| Str (s : string)
| Arr (elements : list value)
| Obj (props : list (string * value)).

(** Own property lookup of an object: the first binding of the name. *)
Fixpoint own_prop (name : string) (props : list (string * value)) : option value :=
  match props with
  | [] => None
  | (k, v) :: rest => if decide (k = name) then Some v else own_prop name rest
  end.

(** [obj[name] = v]: an existing property keeps its place and takes the new
    value, a new property is added after the others. *)
Fixpoint obj_set (name : string) (v : value) (props : list (string * value))
  : list (string * value) :=
  match props with
  | [] => [(name, v)]
  | (k, w) :: rest =>
      if decide (k = name) then (k, v) :: rest else (k, w) :: obj_set name v rest
  end.

(** ToBoolean. *)
Definition truthy (v : value) : bool :=
  match v with
  | Undefined | Null => false
  | Bool b => b
  | Num z => negb (z =? 0)
  | Str s => negb (String.eqb s "")
  | Arr _ | Obj _ => true
  end.

(** A defaulted parameter [(x = d) => ...] takes [d] when the argument is
    [undefined]. *)
Definition default_param (d : value) (arg : value) : value :=
  match arg with
  | Undefined => d
  | _ => arg
  end.

(** The characters of a string as one-character strings, as indexing yields
    them. *)
Fixpoint chars (s : string) : list value :=
  match s with
  | EmptyString => []
  | String c rest => Str (String c EmptyString) :: chars rest
  end.

(** The pairs [(key, v[key])] that [for (let key in v)] visits, in order:
    array and string indices are the decimal strings "0", "1", ...; numbers,
    booleans, [null] and [undefined] have no enumerable property. *)
Definition for_in (v : value) : list (string * value) :=
  match v with
  | Arr elements => imap (λ i x, (pretty i, x)) elements
  | Str s => imap (λ i x, (pretty i, x)) (chars s)
  | Obj props => props
  | _ => []
  end.

(** ** What the runtime converts *)

(** Comparisons of the helper are all against [0]: of a number only its sign
    matters. *)
Inductive Sign : Type := Negative | Zero | Positive | NaN.

Definition sign_of_Z (z : Z) : Sign :=
  match z with
  | Z0 => Zero
  | Zpos _ => Positive
  | Zneg _ => Negative
  end.

(** ToNumber of strings, arrays and objects, and ToString of everything that
    is not a string, are the runtime's; [None] is a conversion that throws.
    The helper is verified for every such runtime. *)
Record Runtime : Type := {
  rt_ToNumber : value → option Sign;
  rt_ToString : value → option string
}.

(** ** Completions and the execution monad *)

Inductive JSError : Type := TypeError.

(** How a statement ends: normally with a value, by [return], or by a
    thrown error. *)
Inductive Completion (A : Type) : Type :=
| Normal (a : A)
| Returned
| Thrown (e : JSError).
Arguments Normal {A} a.
Arguments Returned {A}.
Arguments Thrown {A} e.

Definition Exec (S A : Type) : Type := S → Completion A * S.

#[global] Instance Exec_ret {S} : MRet (Exec S) := λ A a s, (Normal a, s).

#[global] Instance Exec_bind {S} : MBind (Exec S) := λ A B f m s,
  match m s with
  | (Normal a, s') => f a s'
  | (Returned, s') => (Returned, s')
  | (Thrown e, s') => (Thrown e, s')
  end.

Definition throw {S A} (e : JSError) : Exec S A := λ s, (Thrown e, s).

(** [return;] *)
Definition return_ {S A} : Exec S A := λ s, (Returned, s).

Definition modify {S} (f : S → S) : Exec S unit := λ s, (Normal tt, f s).

(** [v.name] for the property names the helper reads ([length], [fieldName],
    [fieldValue], none of them an index): reading a property of [undefined]
    or [null] throws a TypeError. *)
Definition get_prop {S} (v : value) (name : string) : Exec S value :=
  match v with
  | Undefined | Null => throw TypeError
  | Str s => mret (if decide (name = "length") then Num (Z.of_nat (String.length s)) else Undefined)
  | Arr elements => mret (if decide (name = "length") then Num (Z.of_nat (length elements)) else Undefined)
  | Obj props => mret (default Undefined (own_prop name props))
  | Bool _ | Num _ => mret Undefined
  end.

Section WithRuntime.
Context (rt : Runtime).

(** ToNumber, up to the sign of the result. *)
Definition to_number {S} (v : value) : Exec S Sign :=
  match v with
  | Undefined => mret NaN
  | Null => mret Zero
  | Bool b => mret (if b then Positive else Zero)
  | Num z => mret (sign_of_Z z)
  | Str _ | Arr _ | Obj _ =>
      match rt_ToNumber rt v with
      | Some s => mret s
      | None => throw TypeError
      end
  end.

(** [v <= 0], [v > 0] and [v >= 0]: false on NaN. *)
Definition le_zero {S} (v : value) : Exec S bool :=
  s ← to_number v;
  mret (match s with Negative | Zero => true | _ => false end).

Definition gt_zero {S} (v : value) : Exec S bool :=
  s ← to_number v;
  mret (match s with Positive => true | _ => false end).

Definition ge_zero {S} (v : value) : Exec S bool :=
  s ← to_number v;
  mret (match s with Zero | Positive => true | _ => false end).

(** ToString, as a template literal or [+] on a string applies it. *)
Definition to_string {S} (v : value) : Exec S string :=
  match v with
  | Str s => mret s
  | _ =>
      match rt_ToString rt v with
      | Some s => mret s
      | None => throw TypeError
      end
  end.

End WithRuntime.

(** ** The store client, the console and promises *)

(** The error the SDK hands to a callback. *)
Record AWSError : Type := {
  err_code : string;
  err_message : string
}.

(** The request document handed to the document client; a field that was
    never assigned is [None]. *)
Record RequestParams : Type := {
  TableName : option value;
  Item : option value;
  Key : option value;
  ConditionExpression : option value;
  ExpressionAttributeValues : option value;
  UpdateExpression : option string;
  KeyConditionExpression : option value;
  ExpressionAttributeNames : option value;
  IndexName : option value
}.

(** [let requestParams = {}] and the assignments to its fields. *)
Definition empty_request : RequestParams :=
  {| TableName := None; Item := None; Key := None; ConditionExpression := None;
     ExpressionAttributeValues := None; UpdateExpression := None;
     KeyConditionExpression := None; ExpressionAttributeNames := None;
     IndexName := None |}.

Definition set_TableName (v : value) (r : RequestParams) : RequestParams :=
  {| TableName := Some v; Item := Item r; Key := Key r;
     ConditionExpression := ConditionExpression r;
     ExpressionAttributeValues := ExpressionAttributeValues r;
     UpdateExpression := UpdateExpression r;
     KeyConditionExpression := KeyConditionExpression r;
     ExpressionAttributeNames := ExpressionAttributeNames r;
     IndexName := IndexName r |}.

Definition set_Item (v : value) (r : RequestParams) : RequestParams :=
  {| TableName := TableName r; Item := Some v; Key := Key r;
     ConditionExpression := ConditionExpression r;
     ExpressionAttributeValues := ExpressionAttributeValues r;
     UpdateExpression := UpdateExpression r;
     KeyConditionExpression := KeyConditionExpression r;
     ExpressionAttributeNames := ExpressionAttributeNames r;
     IndexName := IndexName r |}.

Definition set_Key (v : value) (r : RequestParams) : RequestParams :=
  {| TableName := TableName r; Item := Item r; Key := Some v;
     ConditionExpression := ConditionExpression r;
     ExpressionAttributeValues := ExpressionAttributeValues r;
     UpdateExpression := UpdateExpression r;
     KeyConditionExpression := KeyConditionExpression r;
     ExpressionAttributeNames := ExpressionAttributeNames r;
     IndexName := IndexName r |}.

Definition set_ConditionExpression (v : value) (r : RequestParams) : RequestParams :=
  {| TableName := TableName r; Item := Item r; Key := Key r;
     ConditionExpression := Some v;
     ExpressionAttributeValues := ExpressionAttributeValues r;
     UpdateExpression := UpdateExpression r;
     KeyConditionExpression := KeyConditionExpression r;
     ExpressionAttributeNames := ExpressionAttributeNames r;
     IndexName := IndexName r |}.

Definition set_ExpressionAttributeValues (v : value) (r : RequestParams) : RequestParams :=
  {| TableName := TableName r; Item := Item r; Key := Key r;
     ConditionExpression := ConditionExpression r;
     ExpressionAttributeValues := Some v;
     UpdateExpression := UpdateExpression r;
     KeyConditionExpression := KeyConditionExpression r;
     ExpressionAttributeNames := ExpressionAttributeNames r;
     IndexName := IndexName r |}.

Definition set_UpdateExpression (e : string) (r : RequestParams) : RequestParams :=
  {| TableName := TableName r; Item := Item r; Key := Key r;
     ConditionExpression := ConditionExpression r;
     ExpressionAttributeValues := ExpressionAttributeValues r;
     UpdateExpression := Some e;
     KeyConditionExpression := KeyConditionExpression r;
     ExpressionAttributeNames := ExpressionAttributeNames r;
     IndexName := IndexName r |}.

Definition set_KeyConditionExpression (v : value) (r : RequestParams) : RequestParams :=
  {| TableName := TableName r; Item := Item r; Key := Key r;
     ConditionExpression := ConditionExpression r;
     ExpressionAttributeValues := ExpressionAttributeValues r;
     UpdateExpression := UpdateExpression r;
     KeyConditionExpression := Some v;
     ExpressionAttributeNames := ExpressionAttributeNames r;
     IndexName := IndexName r |}.

Definition set_ExpressionAttributeNames (v : value) (r : RequestParams) : RequestParams :=
  {| TableName := TableName r; Item := Item r; Key := Key r;
     ConditionExpression := ConditionExpression r;
     ExpressionAttributeValues := ExpressionAttributeValues r;
     UpdateExpression := UpdateExpression r;
     KeyConditionExpression := KeyConditionExpression r;
     ExpressionAttributeNames := Some v;
     IndexName := IndexName r |}.

Definition set_IndexName (v : value) (r : RequestParams) : RequestParams :=
  {| TableName := TableName r; Item := Item r; Key := Key r;
     ConditionExpression := ConditionExpression r;
     ExpressionAttributeValues := ExpressionAttributeValues r;
     UpdateExpression := UpdateExpression r;
     KeyConditionExpression := KeyConditionExpression r;
     ExpressionAttributeNames := ExpressionAttributeNames r;
     IndexName := Some v |}.

(** The five operations of the document client the helper calls. *)
Inductive ClientOp : Type := ClientPut | ClientUpdate | ClientDelete | ClientGet | ClientQuery.

(** What the client passes to the callback: [(err, data)], [err] being
    [null] on success. *)
Definition ClientReply : Type := option AWSError * value.

(** The injected document client. *)
Record DocClient : Type := {
  clientPut : RequestParams → ClientReply;
  clientUpdate : RequestParams → ClientReply;
  clientDelete : RequestParams → ClientReply;
  clientGet : RequestParams → ClientReply;
  clientQuery : RequestParams → ClientReply
}.

(** What lives outside a call: the configured region, the console and the
    calls made on the document client, latest last. *)
Record World : Type := {
  awsRegion : value;
  console : list string;
  storeCalls : list (ClientOp * RequestParams)
}.

Definition defaultRegion : string := "eu-west-1".

(** The state after the module is loaded (line 254 sets the region). *)
Definition initialWorld : World :=
  {| awsRegion := Str defaultRegion; console := []; storeCalls := [] |}.

(** The [DBError] field of a rejection: the SDK's error, or a text. *)
Inductive ErrorDetail : Type :=
| StoreError (e : AWSError)
| ErrorText (s : string).

(** The object a helper function rejects with; a field that the object
    literal does not have is [None].  [calledWith] lists the echoed
    arguments by name. *)
Record ErrorObject : Type := {
  msg : string;
  code : option string;
  DBError : option ErrorDetail;
  calledWith : option (list (string * value))
}.

Inductive Reason : Type :=
| ErrorObj (e : ErrorObject)
| Exception (e : JSError).

Inductive Settlement : Type :=
| Resolved (v : value)
| Rejected (r : Reason).

(** A promise under construction: its settlement, if any, and the world. *)
Record PState : Type := {
  settlement : option Settlement;
  world : World
}.

(** Only the first [resolve] or [reject] of a promise has an effect. *)
Definition settle (o : Settlement) : Exec PState unit :=
  modify (λ st,
    {| settlement := match settlement st with
                     | None => Some o
                     | Some first => Some first
                     end;
       world := world st |}).

Definition resolve (v : value) : Exec PState unit := settle (Resolved v).
Definition reject (e : ErrorObject) : Exec PState unit := settle (Rejected (ErrorObj e)).

Definition console_error (line : string) : Exec PState unit :=
  modify (λ st,
    {| settlement := settlement st;
       world := {| awsRegion := awsRegion (world st);
                   console := console (world st) ++ [line];
                   storeCalls := storeCalls (world st) |} |}).

Definition console_log (line : string) : Exec World unit :=
  modify (λ w,
    {| awsRegion := awsRegion w; console := console w ++ [line];
       storeCalls := storeCalls w |}).

Definition record_call (op : ClientOp) (params : RequestParams) : Exec PState unit :=
  modify (λ st,
    {| settlement := settlement st;
       world := {| awsRegion := awsRegion (world st);
                   console := console (world st);
                   storeCalls := storeCalls (world st) ++ [(op, params)] |} |}).

(** A callback body: [return] inside it ends the callback only. *)
Definition callback (body : Exec PState unit) : Exec PState unit := λ st,
  match body st with
  | (Returned, st') => (Normal tt, st')
  | other => other
  end.

(** [new Promise(executor)]: an error thrown by the executor rejects the
    promise. *)
Definition new_Promise (executor : Exec PState unit) (w : World) : PState :=
  match executor {| settlement := None; world := w |} with
  | (Thrown e, st) => snd (settle (Rejected (Exception e)) st)
  | (_, st) => st
  end.

(** ** The helper *)

Definition when {S} (b : bool) (body : Exec S unit) : Exec S unit :=
  if b then body else mret tt.

(** [return reject(e);] *)
Definition return_reject (e : ErrorObject) : Exec PState unit :=
  reject e;; return_.

(** An error object of the validation: [{msg: m, ...errorObj}]. *)
Definition validation_error (m : string) (errorObj : list (string * value)) : ErrorObject :=
  {| msg := m; code := None; DBError := None; calledWith := Some errorObj |}.

Definition ConditionalCheckFailedException : string := "ConditionalCheckFailedException".

Section Helper.
Context (rt : Runtime) (docClient : DocClient).

(** [v.length <= 0] *)
Definition length_le_zero {S} (v : value) : Exec S bool :=
  len ← get_prop v "length";
  le_zero rt len.

(** [v.length > 0] *)
Definition length_gt_zero {S} (v : value) : Exec S bool :=
  len ← get_prop v "length";
  gt_zero rt len.

(** [!v || v.length <= 0] *)
Definition missing_or_empty {S} (v : value) : Exec S bool :=
  if truthy v then length_le_zero v else mret true.

(** [docClient.put(params, function (err, res) {...})] and its siblings:
    the call is recorded and the callback runs on the client's reply. *)
Definition docClient_put (params : RequestParams)
    (cb : option AWSError → value → Exec PState unit) : Exec PState unit :=
  record_call ClientPut params;;
  let '(err, res) := clientPut docClient params in
  callback (cb err res).

Definition docClient_update (params : RequestParams)
    (cb : option AWSError → value → Exec PState unit) : Exec PState unit :=
  record_call ClientUpdate params;;
  let '(err, data) := clientUpdate docClient params in
  callback (cb err data).

Definition docClient_delete (params : RequestParams)
    (cb : option AWSError → value → Exec PState unit) : Exec PState unit :=
  record_call ClientDelete params;;
  let '(err, data) := clientDelete docClient params in
  callback (cb err data).

Definition docClient_get (params : RequestParams)
    (cb : option AWSError → value → Exec PState unit) : Exec PState unit :=
  record_call ClientGet params;;
  let '(err, data) := clientGet docClient params in
  callback (cb err data).

Definition docClient_query (params : RequestParams)
    (cb : option AWSError → value → Exec PState unit) : Exec PState unit :=
  record_call ClientQuery params;;
  let '(err, data) := clientQuery docClient params in
  callback (cb err data).

(** *** putItem (lines 268-307)

    The string assigned to [ConditionExpression] at line 284 is not a
    well-formed literal in this revision, so it is the parameter
    [absentCondition] here; the first revision (line 46, below) has
    [attribute_not_exists(MachineID)]. *)
Definition putItem (absentCondition : string) (item tableName overwrite_arg : value)
  : World → PState :=
  let overwrite := default_param (Bool false) overwrite_arg in
  new_Promise (
    let requestParams := empty_request in
    let errorObj := [("item", item); ("TableName", tableName); ("overwrite", overwrite)] in
    (* Validation *)
    empty ← length_le_zero item;
    when empty (return_reject (validation_error "No item supplied" errorObj));;
    empty ← length_le_zero tableName;
    when empty (return_reject (validation_error "No tableName supplied" errorObj));;
    (* Build request payload *)
    let requestParams := set_TableName tableName requestParams in
    let requestParams := set_Item item requestParams in
    let requestParams :=
      if negb (truthy overwrite)
      then set_ConditionExpression (Str absentCondition) requestParams
      else requestParams in
    (* Call The DynamoDB API via the SDK *)
    docClient_put requestParams (λ err res,
      match err with
      | Some err =>
          (* Does the item already exist in the table *)
          when (bool_decide (err_code err = ConditionalCheckFailedException))
            (reject {| msg := "Item with that key already exists";
                       code := Some "ItemExists"; DBError := None;
                       calledWith := Some errorObj |});;
          (* Return failure *)
          reject {| msg := "Put failed on dynamoDB"; code := Some "DBError";
                    DBError := Some (StoreError err); calledWith := Some errorObj |}
      | None => mret tt
      end;;
      resolve res)).

(** *** updateItem (lines 322-410) *)

Definition requireItemExistsExpression : string := "attribute_exists(MachineID)".

(** The loop [for (let paramIndex in updateParams)] of lines 346-363, over
    the pairs [(paramIndex, updateParams[paramIndex])] still to visit. *)
Fixpoint update_loop (errorObj : list (string * value))
    (entries : list (string * value))
    (updateExpression : string) (expressionAttributeValues : list (string * value))
  : Exec PState (string * list (string * value)) :=
  match entries with
  | [] => mret (updateExpression, expressionAttributeValues)
  | (paramIndex, param) :: rest =>
      let updateExpression :=
        if bool_decide (paramIndex ≠ "0") then updateExpression +:+ "," else updateExpression in
      (* Ensure that the field name is defined *)
      fieldName ← get_prop param "fieldName";
      match fieldName with
      | Undefined | Null =>
          console_error "Unable to update Item, passed parameters where undefined.";;
          reject {| msg := "Update failed on dynamoDB"; code := Some "InvalidData";
                    DBError := Some (ErrorText "Passed parameters where undefined");
                    calledWith := Some errorObj |};;
          return_
      | _ =>
          name ← to_string rt fieldName;
          let updateExpression := updateExpression +:+ " " +:+ name +:+ " = :" +:+ name in
          fieldValue ← get_prop param "fieldValue";
          let expressionAttributeValues :=
            obj_set (":" +:+ name) fieldValue expressionAttributeValues in
          update_loop errorObj rest updateExpression expressionAttributeValues
      end
  end.

Definition updateItem (itemKey tableName updateParams conditionExpression_arg : value)
  : World → PState :=
  let conditionExpression := default_param (Str "") conditionExpression_arg in
  new_Promise (
    let requestParams := empty_request in
    let errorObj := [("updateParams", updateParams); ("tableName", tableName);
                     ("itemKey", itemKey); ("conditionExpression", conditionExpression)] in
    (* Validation *)
    missing ← missing_or_empty itemKey;
    when missing (return_reject (validation_error "no Item Key supplied" errorObj));;
    missing ← missing_or_empty updateParams;
    when missing (return_reject (validation_error "No updateParams supplied" errorObj));;
    missing ← missing_or_empty tableName;
    when missing (return_reject (validation_error "No tableName supplied" errorObj));;
    (* Build the update expressions *)
    '(updateExpression, expressionAttributeValues) ←
      update_loop errorObj (for_in updateParams) "set" [];
    (* Start building the condition expression *)
    let conditionExpressionBuilder := requireItemExistsExpression in
    (* If a condition expression has been passed include it *)
    passed ← length_gt_zero conditionExpression;
    conditionExpressionBuilder ←
      (if passed : bool
       then extra ← to_string rt conditionExpression;
            mret (conditionExpressionBuilder +:+ ", " +:+ extra)
       else mret conditionExpressionBuilder);
    (* Build the request payload *)
    let requestParams := set_Key itemKey requestParams in
    let requestParams := set_TableName tableName requestParams in
    let requestParams := set_ExpressionAttributeValues (Obj expressionAttributeValues) requestParams in
    let requestParams := set_UpdateExpression updateExpression requestParams in
    let requestParams := set_ConditionExpression (Str conditionExpressionBuilder) requestParams in
    (* Call dynamoDB *)
    docClient_update requestParams (λ err data,
      match err with
      | Some err =>
          (* Handle the Conditional check fail separately *)
          when (bool_decide (err_code err = ConditionalCheckFailedException))
            (let errorText :=
               "Conditional Check Failed, Item possibly does not exist? Failed Condition Expression: "
               +:+ conditionExpressionBuilder in
             return_reject {| msg := errorText;
                              code := Some "DBError.ConditionalCheckFailedException";
                              DBError := Some (StoreError err);
                              calledWith := Some errorObj |});;
          reject {| msg := "Update failed on dynamoDB"; code := Some "DBError";
                    DBError := Some (StoreError err); calledWith := Some errorObj |}
      | None => resolve data
      end)).

(** *** deleteItem (lines 423-457) *)
Definition deleteItem (itemKey tableName deleteCondition deleteParameters : value)
  : World → PState :=
  new_Promise (
    let requestParams := empty_request in
    let errorObj := [("itemKey", itemKey); ("tableName", tableName);
                     ("deleteCondition", deleteCondition);
                     ("deleteParameters", deleteParameters)] in
    (* Validation *)
    empty ← length_le_zero itemKey;
    when empty (return_reject (validation_error "no Item Key supplied" errorObj));;
    empty ← length_le_zero tableName;
    when empty (return_reject (validation_error "No tableName supplied" errorObj));;
    empty ← length_le_zero deleteCondition;
    when empty (return_reject (validation_error "No delete condition supplied" errorObj));;
    empty ← length_le_zero deleteParameters;
    when empty (return_reject (validation_error "No delete condition supplied" errorObj));;
    (* Build the request payload *)
    let requestParams := set_Key itemKey requestParams in
    let requestParams := set_TableName tableName requestParams in
    let requestParams := set_ConditionExpression deleteCondition requestParams in
    let requestParams := set_ExpressionAttributeValues deleteParameters requestParams in
    (* Call dynamoDB *)
    docClient_delete requestParams (λ err data,
      match err with
      | Some err =>
          reject {| msg := "Delete failed on dynamoDB"; code := Some "DBError";
                    DBError := Some (StoreError err); calledWith := Some errorObj |}
      | None => resolve data
      end)).

(** *** getItem (lines 467-496) *)
Definition getItem (itemKey tableName : value) : World → PState :=
  new_Promise (
    let requestParams := empty_request in
    let errorObj := [("itemKey", itemKey); ("tableName", tableName)] in
    (* Validation *)
    empty ← length_le_zero itemKey;
    when empty (return_reject (validation_error "no Item Key supplied" errorObj));;
    empty ← length_le_zero tableName;
    when empty (return_reject (validation_error "No tableName supplied" errorObj));;
    (* Build the request payload *)
    let requestParams := set_Key itemKey requestParams in
    let requestParams := set_TableName tableName requestParams in
    (* Call dynamoDB *)
    docClient_get requestParams (λ err data,
      match err with
      | Some err =>
          reject {| msg := "Get failed on dynamoDB"; code := Some "DBError";
                    DBError := Some (StoreError err); calledWith := Some errorObj |}
      | None => resolve data
      end)).

(** *** query (lines 519-553) *)
Definition query (conditionExpression expressionAttributeNames
    expressionAttributeValues tableName indexName_arg : value) : World → PState :=
  let indexName := default_param (Str "") indexName_arg in
  new_Promise (
    let requestParams := empty_request in
    let errorObj := [("conditionExpression", conditionExpression);
                     ("tableName", tableName);
                     ("expressionAttributeNames", expressionAttributeNames);
                     ("expressionAttributeValues", expressionAttributeValues)] in
    (* Validation *)
    empty ← length_le_zero conditionExpression;
    when empty (return_reject (validation_error "No conditionExpression supplied" errorObj));;
    empty ← length_le_zero tableName;
    when empty (return_reject (validation_error "No tableName supplied" errorObj));;
    empty ← length_le_zero expressionAttributeNames;
    when empty (return_reject (validation_error "No expressionAttributeNames supplied" errorObj));;
    empty ← length_le_zero expressionAttributeValues;
    when empty (return_reject (validation_error "No expressionAttributeValues supplied" errorObj));;
    (* Build the request payload *)
    let requestParams := set_TableName tableName requestParams in
    let requestParams := set_KeyConditionExpression conditionExpression requestParams in
    let requestParams := set_ExpressionAttributeNames expressionAttributeNames requestParams in
    let requestParams := set_ExpressionAttributeValues expressionAttributeValues requestParams in
    (* Include the index name if supplied *)
    supplied ← length_gt_zero indexName;
    let requestParams :=
      if supplied : bool then set_IndexName indexName requestParams else requestParams in
    (* Call dynamoDB *)
    docClient_query requestParams (λ err data,
      match err with
      | Some err =>
          reject {| msg := "Query failed on dynamoDB"; code := Some "DBError";
                    DBError := Some (StoreError err); calledWith := Some errorObj |}
      | None => resolve data
      end)).

(** *** scan (lines 560-567) *)
Definition scan : World → PState :=
  new_Promise (
    reject {| msg := "Not implemented"; code := None; DBError := None;
              calledWith := None |}).

(** *** setAWSRegion (lines 573-582): [AWS.config.update({region: r})]
    sets the configured region. *)
Definition setAWSRegion (regionName : value) : Exec World unit :=
  len ← get_prop regionName "length";
  given ← ge_zero rt len;
  if given : bool
  then modify (λ w, {| awsRegion := regionName; console := console w;
                       storeCalls := storeCalls w |})
  else console_log "No region passed";;
       console_log ("AWS region remains at default: " +:+ defaultRegion).

End Helper.

(** ** putItem in the first revision (lines 30-69) *)
Module FirstRevision.
Section Helper.
Context (rt : Runtime) (docClient : DocClient).

Definition putItem (item tableName overwite_arg : value) : World → PState :=
  let overwite := default_param (Bool false) overwite_arg in
  new_Promise (
    let requestParams := empty_request in
    let errorObj := [("item", item); ("TableName", tableName); ("overwite", overwite)] in
    (* Validation *)
    empty ← length_le_zero rt item;
    when empty (return_reject (validation_error "No item supplied" errorObj));;
    empty ← length_le_zero rt tableName;
    when empty (return_reject (validation_error "No tableName supplied" errorObj));;
    (* Build request payload *)
    let requestParams := set_TableName tableName requestParams in
    let requestParams := set_Item item requestParams in
    let requestParams :=
      if negb (truthy overwite)
      then set_ConditionExpression (Str "attribute_not_exists(MachineID)") requestParams
      else requestParams in
    (* Call The DynamoDB API via the SDK *)
    docClient_put docClient requestParams (λ err res,
      match err with
      | Some err =>
          (* Does the item alredy exist in the table *)
          when (bool_decide (err_code err = ConditionalCheckFailedException))
            (reject {| msg := "Item with that key already exists";
                       code := Some "ItemExists"; DBError := None;
                       calledWith := Some errorObj |});;
          (* Return failure *)
          reject {| msg := "Put failed on dynamoDB"; code := Some "DBError";
                    DBError := Some (StoreError err); calledWith := Some errorObj |}
      | None => mret tt
      end;;
      resolve res)).

End Helper.

(** *** updateItem in the first revision (lines 81-134; the second
    revision, src/unnamed/part_000 lines 83-136, has the same body) *)
Section Update.
Context (rt : Runtime) (docClient : DocClient).

(** [JSON.stringify(err, null, 2)], as the runtime prints the SDK's error. *)
Context (stringify : AWSError → string).

(** [paramIndex !== 0]: a property name is a string, and a string is never
    strictly equal to a number. *)
Definition index_is_not_number (paramIndex : string) (n : Z) : bool := true.

(** The loop of lines 97-103. *)
Fixpoint update_loop (entries : list (string * value))
    (updateExpression : string) (expressionAttributeValues : list (string * value))
  : Exec PState (string * list (string * value)) :=
  match entries with
  | [] => mret (updateExpression, expressionAttributeValues)
  | (paramIndex, param) :: rest =>
      let updateExpression :=
        if index_is_not_number paramIndex 0
        then updateExpression +:+ "," else updateExpression in
      fieldName ← get_prop param "name";
      name ← to_string rt fieldName;
      let updateExpression := updateExpression +:+ " " +:+ name +:+ " = :" +:+ name in
      fieldValue ← get_prop param "value";
      let expressionAttributeValues :=
        obj_set (":" +:+ name) fieldValue expressionAttributeValues in
      update_loop rest updateExpression expressionAttributeValues
  end.

Definition updateItem (itemKey tableName updateParams conditionExpression_arg : value)
  : World → PState :=
  let conditionExpression := default_param (Obj []) conditionExpression_arg in
  new_Promise (
    let requestParams := empty_request in
    let errorObj := [("updateParams", updateParams); ("tableName", tableName);
                     ("itemKey", itemKey); ("conditionExpression", conditionExpression)] in
    (* Validation *)
    empty ← length_le_zero rt itemKey;
    when empty (return_reject (validation_error "no Item Key supplied" errorObj));;
    empty ← length_le_zero rt updateParams;
    when empty (return_reject (validation_error "No updateParams supplied" errorObj));;
    empty ← length_le_zero rt tableName;
    when empty (return_reject (validation_error "No tableName supplied" errorObj));;
    (* Build the update expressions *)
    '(updateExpression, expressionAttributeValues) ←
      update_loop (for_in updateParams) "set" [];
    (* Build the request payload *)
    let requestParams := set_Key itemKey requestParams in
    let requestParams := set_TableName tableName requestParams in
    let requestParams :=
      set_ExpressionAttributeValues (Obj expressionAttributeValues) requestParams in
    let requestParams := set_UpdateExpression updateExpression requestParams in
    (* If a condition expression is supplied include it *)
    len ← get_prop conditionExpression "length";
    supplied ← ge_zero rt len;
    let requestParams :=
      if supplied : bool
      then set_ConditionExpression conditionExpression requestParams
      else requestParams in
    (* Call dynamoDB *)
    docClient_update docClient requestParams (λ err data,
      match err with
      | Some err =>
          console_error ("Unable to update item. Error JSON: " +:+ stringify err);;
          reject {| msg := "Update failed on dynamoDB"; code := Some "DBError";
                    DBError := Some (StoreError err); calledWith := Some errorObj |}
      | None => resolve data
      end)).

End Update.
End FirstRevision.

(** ** query in the second revision (src/unnamed/part_000, lines 245-279) *)
Module SecondRevision.
Section Helper.
Context (rt : Runtime) (docClient : DocClient).

Definition query (conditionExpression expressionAttributeNames
    expressionAttributeValues tableName indexName_arg : value) : World → PState :=
  let indexName := default_param (Str "") indexName_arg in
  new_Promise (
    let requestParams := empty_request in
    let errorObj := [("conditionExpression", conditionExpression);
                     ("tableName", tableName);
                     ("expressionAttributeNames", expressionAttributeNames);
                     ("expressionAttributeValues", expressionAttributeValues)] in
    (* Validation *)
    empty ← length_le_zero rt conditionExpression;
    when empty (return_reject (validation_error "No conditionExpression supplied" errorObj));;
    empty ← length_le_zero rt tableName;
    when empty (return_reject (validation_error "No tableName supplied" errorObj));;
    empty ← length_le_zero rt expressionAttributeNames;
    when empty (return_reject (validation_error "No expressionAttributeNames supplied" errorObj));;
    empty ← length_le_zero rt expressionAttributeValues;
    when empty (return_reject (validation_error "No expressionAttributeValues supplied" errorObj));;
    (* Build the request payload *)
    let requestParams := set_TableName tableName requestParams in
    let requestParams := set_KeyConditionExpression conditionExpression requestParams in
    let requestParams := set_ExpressionAttributeNames expressionAttributeNames requestParams in
    let requestParams := set_ExpressionAttributeValues expressionAttributeValues requestParams in
    (* Include the index name if supplied *)
    len ← get_prop indexName "length";
    supplied ← ge_zero rt len;
    let requestParams :=
      if supplied : bool then set_IndexName indexName requestParams else requestParams in
    (* Call dynamoDB *)
    docClient_query docClient requestParams (λ err data,
      match err with
      | Some err =>
          reject {| msg := "Query failed on dynamoDB"; code := Some "DBError";
                    DBError := Some (StoreError err); calledWith := Some errorObj |}
      | None => resolve data
      end)).

End Helper.
End SecondRevision.

(** ** dynamoTest.js *)

(** What a script hands to [console.log]: a text, a value, or the reason of
    a rejection. *)
Inductive Printed : Type :=
| PrintedText (s : string)
| PrintedValue (v : value)
| PrintedReason (r : Reason).

(** The script (lines 6-17): [getItem(...).then(...).catch(...)]; the
    handler of [then] runs on a resolved promise, the one of [catch] on a
    rejected one.  The result is what the script prints, in order, and the
    world it leaves. *)
Definition dynamoTest (rt : Runtime) (docClient : DocClient) (w : World)
  : list Printed * World :=
  let promise := getItem rt docClient (Obj [("HashID", Str "4666fsffr")])
                   (Str "SomeTable") w in
  (match settlement promise with
   | Some (Resolved res) => [PrintedText "Got it"; PrintedValue res]
   | Some (Rejected err) => [PrintedText "There is an error"; PrintedReason err]
   | None => []
   end,
   world promise).

(** ** Observing a call *)

(** The requests the document client received during a call. *)
Definition requests (st : PState) : list (ClientOp * RequestParams) :=
  storeCalls (world st).

(** The error code a promise was rejected with, if it was rejected with an
    object that has one. *)
Definition rejection_code (st : PState) : option string :=
  match settlement st with
  | Some (Rejected (ErrorObj e)) => code e
  | _ => None
  end.

(** ** A runtime and clients to run the helper on *)

(** A runtime for the examples, with the conversions they need: the empty
    string and the empty array convert to [0], an object to NaN; primitive
    values, the empty array and objects convert to strings as in the
    language. *)
Definition plainRuntime : Runtime :=
  {| rt_ToNumber := λ v, match v with
                         | Str "" | Arr [] => Some Zero
                         | Obj _ => Some NaN
                         | _ => None
                         end;
     rt_ToString := λ v, match v with
                         | Undefined => Some "undefined"
                         | Null => Some "null"
                         | Bool true => Some "true"
                         | Bool false => Some "false"
                         | Num z => Some (pretty z)
                         | Arr [] => Some ""
                         | Obj _ => Some "[object Object]"
                         | _ => None
                         end |}.

(** A client that answers every request with the same reply. *)
Definition constClient (reply : ClientReply) : DocClient :=
  {| clientPut := λ _, reply; clientUpdate := λ _, reply; clientDelete := λ _, reply;
     clientGet := λ _, reply; clientQuery := λ _, reply |}.

(** The store's answer to a read of a key that has no item: success, with a
    response that holds no [Item]. *)
Definition noItemFound : ClientReply := (None, Obj []).

Definition conditionFailed : AWSError :=
  {| err_code := ConditionalCheckFailedException;
     err_message := "The conditional request failed" |}.

Definition throttled : AWSError :=
  {| err_code := "ProvisionedThroughputExceededException";
     err_message := "Rate exceeded" |}.

(** ** The tests of the validation *)

(** The completion of [v.length <= 0] and of [!v || v.length <= 0]: the
    result, or the error thrown. *)
Definition length_test (rt : Runtime) (v : value) : Completion bool :=
  fst (length_le_zero rt v ()).

Definition presence_test (rt : Runtime) (v : value) : Completion bool :=
  fst (missing_or_empty rt v ()).

(** An argument that passes the check [v.length <= 0] of the validation. *)
Definition non_empty (rt : Runtime) (v : value) : Prop :=
  length_test rt v = Normal false.

(** An argument that passes the check [!v || v.length <= 0]. *)
Definition present (rt : Runtime) (v : value) : Prop :=
  presence_test rt v = Normal false.

(** The completion of a statement that does not use the state. *)
Definition outcome {A} (m : Exec () A) : Completion A := fst (m ()).

(** ** Stating the properties *)

(** A call that ends before the store is asked: no request is recorded and
    the promise is rejected, by a thrown error or with an error object that
    has no [code] and echoes the arguments. *)
Definition rejected_by_validation (w : World) (st : PState) : Prop :=
  requests st = storeCalls w ∧
  ∃ r, settlement st = Some (Rejected r) ∧
       match r with
       | ErrorObj e => code e = None ∧ DBError e = None ∧ is_Some (calledWith e)
       | Exception _ => True
       end.

(** What the specification expects of [scan]: no call on the store and a
    rejection classified [NotImplemented] that carries the call context. *)
Definition scan_reports_not_implemented (w : World) : Prop :=
  requests (scan w) = storeCalls w ∧
  ∃ e, settlement (scan w) = Some (Rejected (ErrorObj e)) ∧
       code e = Some "NotImplemented" ∧ is_Some (calledWith e).

(** The request document of lines 378-382. *)
Definition update_request (itemKey tableName : value) (updateExpression : string)
    (expressionAttributeValues : list (string * value)) (condition : string)
  : RequestParams :=
  set_ConditionExpression (Str condition)
    (set_UpdateExpression updateExpression
       (set_ExpressionAttributeValues (Obj expressionAttributeValues)
          (set_TableName tableName (set_Key itemKey empty_request)))).

(** The condition lines 369-374 build from the caller's one: the base
    alone, or the base, a comma and the caller's condition. *)
Definition built_condition (rt : Runtime) (conditionExpression : value)
    (condition : string) : Prop :=
  (outcome (length_gt_zero rt conditionExpression) = Normal false ∧
   condition = requireItemExistsExpression) ∨
  (outcome (length_gt_zero rt conditionExpression) = Normal true ∧
   ∃ extra, outcome (to_string rt conditionExpression) = Normal extra ∧
            condition = requireItemExistsExpression +:+ ", " +:+ extra).

(** The arguments [updateItem] echoes in its error objects. *)
Definition update_calledWith (itemKey tableName updateParams conditionExpression : value)
  : list (string * value) :=
  [("updateParams", updateParams); ("tableName", tableName);
   ("itemKey", itemKey); ("conditionExpression", conditionExpression)].

(** How the promise of [updateItem] is settled on the reply of the store. *)
Definition update_settled (st : PState) (reply : ClientReply) : Prop :=
  match reply with
  | (None, data) => settlement st = Some (Resolved data)
  | (Some err, _) =>
      ∃ e, settlement st = Some (Rejected (ErrorObj e)) ∧
           code e = Some (if bool_decide (err_code err = ConditionalCheckFailedException)
                          then "DBError.ConditionalCheckFailedException"
                          else "DBError") ∧
           DBError e = Some (StoreError err)
  end.

Definition sampleKey : value := Obj [("MachineID", Num 22)].

Definition sampleFields : value :=
  Arr [Obj [("fieldName", Str "MachinePPM"); ("fieldValue", Num 71)];
       Obj [("fieldName", Str "Operator"); ("fieldValue", Str "R. Curran")]].

(** [param] is an update field whose [fieldName] is defined and not null:
    the loop reads the name (as a string) and the value [field] from it. *)
Definition update_field (rt : Runtime) (param : value) (field : string * value) : Prop :=
  ∃ fieldName,
    outcome (get_prop param "fieldName") = Normal fieldName ∧
    fieldName ≠ Undefined ∧ fieldName ≠ Null ∧
    outcome (to_string rt fieldName) = Normal field.1 ∧
    outcome (get_prop param "fieldValue") = Normal field.2.

(** The expression the specification describes:
    [set <name1> = :<name1>, <name2> = :<name2>, ...]. *)
Definition clause (name : string) : string := name +:+ " = :" +:+ name.

Definition set_expression (names : list string) : string :=
  "set " +:+ String.concat ", " (clause <$> names).

(** The mapping the specification describes: every field in turn binds the
    placeholder [:<name>] to its value, a later one replacing an earlier. *)
Definition attribute_values (fields : list (string * value)) : gmap string value :=
  foldl (λ m field, <[":" +:+ field.1 := field.2]> m) ∅ fields.

(** What the loop appends to the expression for the fields from index [k]
    on, and how it fills the object. *)
Fixpoint clauses_from (k : nat) (fields : list (string * value)) : string :=
  match fields with
  | [] => ""
  | field :: rest =>
      (if bool_decide (k ≠ 0%nat) then "," else "")
        +:+ " " +:+ clause field.1 +:+ clauses_from (S k) rest
  end.

Definition set_values (fields : list (string * value)) (obj : list (string * value))
  : list (string * value) :=
  foldl (λ o field, obj_set (":" +:+ field.1) field.2 o) obj fields.

(** A call that reached the store with [v] in the field [field] of its
    request, and whose outcome is not [InvalidData]. *)
Definition reaches_store_with (w : World) (st : PState) (op : ClientOp)
    (field : RequestParams → option value) (v : value) : Prop :=
  ∃ req, requests st = storeCalls w ++ [(op, req)] ∧
         field req = Some v ∧
         rejection_code st ≠ Some "InvalidData".

(** The condition [updateItem] sends when the caller's one is a string. *)
Definition condition_for (condition : string) : string :=
  if negb (String.eqb condition "")
  then requireItemExistsExpression +:+ ", " +:+ condition
  else requireItemExistsExpression.

Definition duplicateFields : list value :=
  [Obj [("fieldName", Str "a"); ("fieldValue", Num 1)];
   Obj [("fieldName", Str "b"); ("fieldValue", Num 2)];
   Obj [("fieldName", Str "a"); ("fieldValue", Num 3)]].

(** A call of one of the five operations, with its arguments. *)
Inductive Invocation : Type :=
| CallPutItem (item tableName overwrite : value)
| CallUpdateItem (itemKey tableName updateParams conditionExpression : value)
| CallDeleteItem (itemKey tableName deleteCondition deleteParameters : value)
| CallGetItem (itemKey tableName : value)
| CallQuery (conditionExpression expressionAttributeNames expressionAttributeValues
               tableName indexName : value).

Definition invoke (rt : Runtime) (docClient : DocClient) (absentCondition : string)
    (call : Invocation) : World → PState :=
  match call with
  | CallPutItem item tableName overwrite =>
      putItem rt docClient absentCondition item tableName overwrite
  | CallUpdateItem itemKey tableName updateParams conditionExpression =>
      updateItem rt docClient itemKey tableName updateParams conditionExpression
  | CallDeleteItem itemKey tableName deleteCondition deleteParameters =>
      deleteItem rt docClient itemKey tableName deleteCondition deleteParameters
  | CallGetItem itemKey tableName =>
      getItem rt docClient itemKey tableName
  | CallQuery conditionExpression expressionAttributeNames expressionAttributeValues
      tableName indexName =>
      query rt docClient conditionExpression expressionAttributeNames
        expressionAttributeValues tableName indexName
  end.

(** The arguments an operation cannot do without. *)
Definition mandatory (call : Invocation) : list value :=
  match call with
  | CallPutItem item tableName _ => [item; tableName]
  | CallUpdateItem itemKey tableName updateParams _ => [itemKey; tableName; updateParams]
  | CallDeleteItem itemKey tableName deleteCondition deleteParameters =>
      [itemKey; tableName; deleteCondition; deleteParameters]
  | CallGetItem itemKey tableName => [itemKey; tableName]
  | CallQuery conditionExpression expressionAttributeNames expressionAttributeValues
      tableName _ =>
      [conditionExpression; expressionAttributeNames; expressionAttributeValues; tableName]
  end.

(** An argument that is missing ([undefined], [null]) or empty (the empty
    string, the empty array). *)
Definition missing_or_empty_argument (v : value) : bool :=
  match v with
  | Undefined | Null | Str "" | Arr [] => true
  | _ => false
  end.

(** What the specification expects of such a call. *)
Definition fails_with_InvalidData (w : World) (st : PState) : Prop :=
  requests st = storeCalls w ∧ rejection_code st = Some "InvalidData".

(** What C9 says of the validation: an argument it rejects has a numeric
    [length] (that is not positive). *)
Definition rejects_only_numeric_length (rt : Runtime) (docClient : DocClient)
    (absentCondition : string) (call : Invocation) (w : World) : Prop :=
  (∃ e, settlement (invoke rt docClient absentCondition call w)
          = Some (Rejected (ErrorObj e)) ∧ code e = None) →
  Exists (λ v, ∃ n, outcome (get_prop v "length") = Normal (Num n) ∧ n ≤ 0)
    (mandatory call).

(** *** Summaries of a call, for the properties of all operations *)

(** The method of the client an operation calls. *)
Definition client_op (call : Invocation) : ClientOp :=
  match call with
  | CallPutItem _ _ _ => ClientPut
  | CallUpdateItem _ _ _ _ => ClientUpdate
  | CallDeleteItem _ _ _ _ => ClientDelete
  | CallGetItem _ _ => ClientGet
  | CallQuery _ _ _ _ _ => ClientQuery
  end.

#[global] Instance ClientOp_eq_dec : EqDecision ClientOp.
Proof. solve_decision. Defined.

(** The reply of the client to a request on one of its methods. *)
Definition store_reply (docClient : DocClient) (op : ClientOp) (req : RequestParams)
  : ClientReply :=
  match op with
  | ClientPut => clientPut docClient req
  | ClientUpdate => clientUpdate docClient req
  | ClientDelete => clientDelete docClient req
  | ClientGet => clientGet docClient req
  | ClientQuery => clientQuery docClient req
  end.

(** The code under which the callbacks reject on an error of the store
    (lines 291-297, 392-399, 447, 486 and 544). *)
Definition store_error_code (op : ClientOp) (err : AWSError) : string :=
  match op with
  | ClientPut =>
      if bool_decide (err_code err = ConditionalCheckFailedException)
      then "ItemExists" else "DBError"
  | ClientUpdate =>
      if bool_decide (err_code err = ConditionalCheckFailedException)
      then "DBError.ConditionalCheckFailedException" else "DBError"
  | ClientDelete | ClientGet | ClientQuery => "DBError"
  end.

(** The line [updateItem] prints before it rejects with [InvalidData]. *)
Definition undefined_parameters_line : string :=
  "Unable to update Item, passed parameters where undefined.".

(** The object [updateItem] rejects with at lines 353-357. *)
Definition invalid_data_error (errorObj : list (string * value)) : ErrorObject :=
  {| msg := "Update failed on dynamoDB"; code := Some "InvalidData";
     DBError := Some (ErrorText "Passed parameters where undefined");
     calledWith := Some errorObj |}.

(** A call that ended before the store was asked: it is rejected, by a
    thrown error, by the validation (an object without code) or with
    [InvalidData] (after a line on the console). *)
Definition ended_early (w : World) (st : PState) : Prop :=
  requests st = storeCalls w ∧
  awsRegion (world st) = awsRegion w ∧
  ∃ r, settlement st = Some (Rejected r) ∧
       match r with
       | ErrorObj e =>
           is_Some (calledWith e) ∧
           ((code e = None ∧ console (world st) = console w) ∨
            (code e = Some "InvalidData" ∧
             console (world st) = console w ++ [undefined_parameters_line]))
       | Exception _ => console (world st) = console w
       end.

(** A call that asked the store once and was settled on its reply. *)
Definition ended_by_store (w : World) (docClient : DocClient) (op : ClientOp)
    (st : PState) : Prop :=
  ∃ req,
    requests st = storeCalls w ++ [(op, req)] ∧
    awsRegion (world st) = awsRegion w ∧
    console (world st) = console w ∧
    match store_reply docClient op req with
    | (None, data) => settlement st = Some (Resolved data)
    | (Some err, _) =>
        ∃ e, settlement st = Some (Rejected (ErrorObj e)) ∧
             code e = Some (store_error_code op err) ∧
             is_Some (calledWith e)
    end.

(** The world after one more call on the client. *)
Definition with_call (w : World) (op : ClientOp) (req : RequestParams) : World :=
  {| awsRegion := awsRegion w; console := console w;
     storeCalls := storeCalls w ++ [(op, req)] |}.

(** The request documents the operations build, field by field. *)
Definition delete_request (itemKey tableName deleteCondition deleteParameters : value)
  : RequestParams :=
  {| TableName := Some tableName; Item := None; Key := Some itemKey;
     ConditionExpression := Some deleteCondition;
     ExpressionAttributeValues := Some deleteParameters;
     UpdateExpression := None; KeyConditionExpression := None;
     ExpressionAttributeNames := None; IndexName := None |}.

Definition query_request (conditionExpression expressionAttributeNames
    expressionAttributeValues tableName : value) (indexName : option value)
  : RequestParams :=
  {| TableName := Some tableName; Item := None; Key := None;
     ConditionExpression := None;
     ExpressionAttributeValues := Some expressionAttributeValues;
     UpdateExpression := None;
     KeyConditionExpression := Some conditionExpression;
     ExpressionAttributeNames := Some expressionAttributeNames;
     IndexName := indexName |}.

Definition put_request (item tableName : value) (condition : option value)
  : RequestParams :=
  {| TableName := Some tableName; Item := Some item; Key := None;
     ConditionExpression := condition;
     ExpressionAttributeValues := None; UpdateExpression := None;
     KeyConditionExpression := None; ExpressionAttributeNames := None;
     IndexName := None |}.

(** The error object of a callback: [{msg, code: "DBError", DBError: err,
    ...errorObj}]. *)
Definition store_error (m : string) (err : AWSError) (errorObj : list (string * value))
  : ErrorObject :=
  {| msg := m; code := Some "DBError"; DBError := Some (StoreError err);
     calledWith := Some errorObj |}.

(** *** For the earlier revisions *)

(** The completion of [v.length >= 0]. *)
Definition length_ge_zero_test (rt : Runtime) (v : value) : Completion bool :=
  outcome (len ← get_prop v "length"; ge_zero rt len).

(** What the loop of the first revision reads from an update field: its
    [name], as a string, and its [value]. *)
Definition legacy_update_field (rt : Runtime) (param : value) (field : string * value)
  : Prop :=
  ∃ fieldName,
    outcome (get_prop param "name") = Normal fieldName ∧
    outcome (to_string rt fieldName) = Normal field.1 ∧
    outcome (get_prop param "value") = Normal field.2.

(** [set] followed, for every name, by a comma, a space and the clause. *)
Definition legacy_set_expression (names : list string) : string :=
  "set" +:+ String.concat "" ((λ name, ", " +:+ clause name) <$> names).

(** The request document of the first revision's [updateItem]. *)
Definition legacy_update_request (itemKey tableName : value) (updateExpression : string)
    (expressionAttributeValues : list (string * value)) (condition : option value)
  : RequestParams :=
  {| TableName := Some tableName; Item := None; Key := Some itemKey;
     ConditionExpression := condition;
     ExpressionAttributeValues := Some (Obj expressionAttributeValues);
     UpdateExpression := Some updateExpression;
     KeyConditionExpression := None; ExpressionAttributeNames := None;
     IndexName := None |}.

(** Update fields as the first revision expects them, and a way to print
    an error, for the examples. *)
Definition legacyFields : list value :=
  [Obj [("name", Str "MachinePPM"); ("value", Num 71)];
   Obj [("name", Str "Operator"); ("value", Str "R. Curran")]].

Definition printCode (err : AWSError) : string :=
  "{code: " +:+ err_code err +:+ "}".

(** The request the script's call sends. *)
Definition scriptRequest : RequestParams :=
  {| TableName := Some (Str "SomeTable"); Item := None;
     Key := Some (Obj [("HashID", Str "4666fsffr")]);
     ConditionExpression := None; ExpressionAttributeValues := None;
     UpdateExpression := None; KeyConditionExpression := None;
     ExpressionAttributeNames := None; IndexName := None |}.

(** *** The guard of putItem and a store without items *)

(** What [putItem] does about a key collision, [put overwrite w] being the
    call with the item and the table name fixed: with [overwrite = false]
    the one request carries [condition], and a
    ConditionalCheckFailedException of the store is reported as
    [ItemExists]; with [overwrite = true] the request carries no condition
    and resolves with the store's response when the store accepts it. *)
Definition guards_against_overwrite (docClient : DocClient) (w : World)
    (put : value → World → PState) (condition : string) : Prop :=
  (∃ req,
     requests (put (Bool false) w) = storeCalls w ++ [(ClientPut, req)] ∧
     ConditionExpression req = Some (Str condition) ∧
     ∀ err res, clientPut docClient req = (Some err, res) →
       err_code err = ConditionalCheckFailedException →
       rejection_code (put (Bool false) w) = Some "ItemExists") ∧
  (∃ req,
     requests (put (Bool true) w) = storeCalls w ++ [(ClientPut, req)] ∧
     ConditionExpression req = None ∧
     ∀ res, clientPut docClient req = (None, res) →
       settlement (put (Bool true) w) = Some (Resolved res)).


(** A store without any item: a write whose condition starts with
    [attribute_exists] fails, every other request succeeds with an empty
    response. *)
Definition emptyStore : DocClient :=
  let conditioned (req : RequestParams) : ClientReply :=
    match ConditionExpression req with
    | Some (Str condition) =>
        if String.prefix "attribute_exists(" condition
        then (Some conditionFailed, Null)
        else (None, Obj [])
    | _ => (None, Obj [])
    end in
  {| clientPut := λ _, (None, Obj []);
     clientUpdate := conditioned;
     clientDelete := conditioned;
     clientGet := λ _, noItemFound;
     clientQuery := λ _, (None, Obj []) |}.

(** The arguments an operation echoes in [calledWith], by name: the
    optional ones after their default, the index name of [query] not at
    all. *)
Definition echoed_arguments (call : Invocation) : list (string * value) :=
  match call with
  | CallPutItem item tableName overwrite =>
      [("item", item); ("TableName", tableName);
       ("overwrite", default_param (Bool false) overwrite)]
  | CallUpdateItem itemKey tableName updateParams conditionExpression =>
      [("updateParams", updateParams); ("tableName", tableName);
       ("itemKey", itemKey);
       ("conditionExpression", default_param (Str "") conditionExpression)]
  | CallDeleteItem itemKey tableName deleteCondition deleteParameters =>
      [("itemKey", itemKey); ("tableName", tableName);
       ("deleteCondition", deleteCondition); ("deleteParameters", deleteParameters)]
  | CallGetItem itemKey tableName =>
      [("itemKey", itemKey); ("tableName", tableName)]
  | CallQuery conditionExpression expressionAttributeNames expressionAttributeValues
      tableName _ =>
      [("conditionExpression", conditionExpression); ("tableName", tableName);
       ("expressionAttributeNames", expressionAttributeNames);
       ("expressionAttributeValues", expressionAttributeValues)]
  end.

(** ** The tests of the validation are pure *)

Ltac exec_unfold :=
  unfold outcome, length_test, presence_test, missing_or_empty, length_le_zero,
    length_gt_zero,
    le_zero, gt_zero, ge_zero, to_number, to_string, get_prop, when,
    return_reject, reject, resolve, settle, modify, throw, return_,
    mbind, mret, Exec_bind, Exec_ret in *.

Section Purity.
Context (rt : Runtime).

Lemma length_le_zero_run {S} (v : value) (s : S) :
  length_le_zero rt v s = (length_test rt v, s).
Proof.
  exec_unfold.
  destruct v as [| |b|z|str|l|props]; simpl; try done;
    repeat match goal with
    | |- context [rt_ToNumber rt ?x] => destruct (rt_ToNumber rt x)
    | |- context [own_prop ?n ?p] => destruct (own_prop n p) as [[| |?|?|?|?|?]|]
    end; simpl; done.
Qed.

Lemma length_test_not_returned (v : value) : length_test rt v ≠ Returned.
Proof.
  exec_unfold.
  destruct v as [| |b|z|str|l|props]; simpl; try done;
    repeat match goal with
    | |- context [rt_ToNumber rt ?x] => destruct (rt_ToNumber rt x)
    | |- context [own_prop ?n ?p] => destruct (own_prop n p) as [[| |?|?|?|?|?]|]
    end; simpl; done.
Qed.

Lemma missing_or_empty_run {S} (v : value) (s : S) :
  missing_or_empty rt v s = (presence_test rt v, s).
Proof.
  unfold presence_test, missing_or_empty.
  destruct (truthy v); [|done].
  by rewrite !length_le_zero_run.
Qed.

Lemma presence_test_not_returned (v : value) : presence_test rt v ≠ Returned.
Proof.
  unfold presence_test, missing_or_empty.
  destruct (truthy v); [|done].
  rewrite length_le_zero_run. apply length_test_not_returned.
Qed.

Lemma get_prop_run {S} (v : value) (name : string) (s : S) :
  get_prop v name s = (outcome (get_prop v name), s).
Proof. by destruct v. Qed.

Lemma get_prop_not_returned (v : value) (name : string) :
  outcome (get_prop v name) ≠ Returned.
Proof. by destruct v. Qed.

Lemma to_string_run {S} (v : value) (s : S) :
  to_string rt v s = (outcome (to_string rt v), s).
Proof. exec_unfold. destruct v; simpl; try done; by destruct (rt_ToString rt _). Qed.

Lemma to_string_not_returned (v : value) : outcome (to_string rt v) ≠ Returned.
Proof. exec_unfold. destruct v; simpl; try done; by destruct (rt_ToString rt _). Qed.

Lemma length_gt_zero_run {S} (v : value) (s : S) :
  length_gt_zero rt v s = (outcome (length_gt_zero rt v), s).
Proof.
  exec_unfold.
  destruct v as [| |b|z|str|l|props]; simpl; try done;
    repeat match goal with
    | |- context [rt_ToNumber rt ?x] => destruct (rt_ToNumber rt x)
    | |- context [own_prop ?n ?p] => destruct (own_prop n p) as [[| |?|?|?|?|?]|]
    end; simpl; done.
Qed.

Lemma length_gt_zero_not_returned (v : value) :
  outcome (length_gt_zero rt v) ≠ Returned.
Proof.
  exec_unfold.
  destruct v as [| |b|z|str|l|props]; simpl; try done;
    repeat match goal with
    | |- context [rt_ToNumber rt ?x] => destruct (rt_ToNumber rt x)
    | |- context [own_prop ?n ?p] => destruct (own_prop n p) as [[| |?|?|?|?|?]|]
    end; simpl; done.
Qed.

(** A value without a [length] is not empty for the validation. *)
Lemma length_test_no_length (v : value) :
  outcome (get_prop v "length") = Normal Undefined →
  length_test rt v = Normal false.
Proof.
  exec_unfold.
  destruct v as [| |b|z|str|l|props]; simpl; try done.
  destruct (own_prop "length" props) as [[| |?|?|?|?|?]|]; simpl; done.
Qed.

End Purity.

(** ** Stepping through an executor *)

Lemma exec_bind_eq {S A B} (m : Exec S A) (f : A → Exec S B) (s : S) :
  (m ≫= f) s =
  match m s with
  | (Normal a, s') => f a s'
  | (Returned, s') => (Returned, s')
  | (Thrown e, s') => (Thrown e, s')
  end.
Proof. reflexivity. Qed.

Lemma when_true {S} (body : Exec S unit) : when true body = body.
Proof. reflexivity. Qed.

Lemma when_false {S} (body : Exec S unit) (s : S) : when false body s = (Normal tt, s).
Proof. reflexivity. Qed.

Lemma return_reject_run (e : ErrorObject) (st : PState) :
  return_reject e st = (Returned, snd (reject e st)).
Proof. reflexivity. Qed.

(** One statement of an executor, in the equation [H] that defines the
    final state: the head of a sequence is run by the lemma that fits it. *)
Ltac exec_step H :=
  rewrite exec_bind_eq in H;
  first [ rewrite length_le_zero_run in H
        | rewrite missing_or_empty_run in H
        | rewrite length_gt_zero_run in H
        | rewrite to_string_run in H
        | rewrite get_prop_run in H
        | rewrite when_false in H
        | rewrite when_true, return_reject_run in H
        | idtac ];
  cbv beta iota delta [mret Exec_ret] in H.

(** Names the final state of a call and exposes its executor. *)
Ltac exec_start st H :=
  match goal with
  | st0 := _ |- _ =>
      assert (H : st0 = st0) by reflexivity;
      unfold st0 at 2 in H; clearbody st0; rename st0 into st
  end.

(** Runs one check [if (v.length <= 0) return reject(...)] of the equation
    [H] and closes the cases that end the call. *)
Ltac check_length rt H v w :=
  exec_step H;
  let E := fresh "Hlen" in
  destruct (length_test rt v) as [[|]| |?] eqn:E;
  [ exec_step H; left; subst; split; [reflexivity | eexists; split; [reflexivity | simpl; eauto ]]
  | exec_step H
  | exfalso; exact (length_test_not_returned rt v E)
  | cbv beta iota in H; left; subst; split; [reflexivity | eexists; split; [reflexivity | exact I ]] ].

(** ** getItem *)

Lemma getItem_cases
    (rt : Runtime) (docClient : DocClient) (itemKey tableName : value) (w : World) :
  let st := getItem rt docClient itemKey tableName w in
  rejected_by_validation w st ∨
  (non_empty rt itemKey ∧ non_empty rt tableName ∧
   let req := set_TableName tableName (set_Key itemKey empty_request) in
   requests st = storeCalls w ++ [(ClientGet, req)] ∧
   match clientGet docClient req with
   | (None, data) => settlement st = Some (Resolved data)
   | (Some err, _) =>
       ∃ e, settlement st = Some (Rejected (ErrorObj e)) ∧
            code e = Some "DBError" ∧ DBError e = Some (StoreError err)
   end).
Proof.
  intros st. exec_start st Hst.
  unfold getItem, new_Promise, docClient_get in Hst.
  check_length rt Hst itemKey w.
  check_length rt Hst tableName w.
  right. do 2 (split; [done|]). cbv zeta.
  destruct (clientGet docClient _) as [[err|] data];
    subst st; simpl; eauto 10.
Qed.

(** C6: a call to [getItem] that passes validation sends one request to the
    store; when the store answers with success, whatever the response holds
    (in particular the response for a key without item), the promise
    resolves with that response; only an error of the store rejects, with
    code [DBError] and the store's error as cause. *)
Theorem getItem_not_found_is_success
    (rt : Runtime) (docClient : DocClient) (itemKey tableName : value) (w : World) :
  non_empty rt itemKey →
  non_empty rt tableName →
  ∃ req,
    requests (getItem rt docClient itemKey tableName w) = storeCalls w ++ [(ClientGet, req)] ∧
    Key req = Some itemKey ∧ TableName req = Some tableName ∧
    match clientGet docClient req with
    | (None, data) =>
        settlement (getItem rt docClient itemKey tableName w) = Some (Resolved data)
    | (Some err, _) =>
        ∃ e, settlement (getItem rt docClient itemKey tableName w)
               = Some (Rejected (ErrorObj e)) ∧
             code e = Some "DBError" ∧ DBError e = Some (StoreError err)
    end.
Proof.
  intros Hkey Htable.
  exists (set_TableName tableName (set_Key itemKey empty_request)).
  set (st := getItem rt docClient itemKey tableName w).
  exec_start st Hst.
  unfold getItem, new_Promise, docClient_get in Hst.
  exec_step Hst. rewrite Hkey in Hst. exec_step Hst.
  exec_step Hst. rewrite Htable in Hst. exec_step Hst.
  destruct (clientGet docClient _) as [[err|] data];
    subst st; simpl; eauto 10.
Qed.

Lemma getItem_not_found_is_success_witness :
  requests (getItem plainRuntime (constClient noItemFound)
              (Obj [("HashID", Str "4666fsffr")]) (Str "SomeTable") initialWorld) ≠ [] ∧
  settlement (getItem plainRuntime (constClient noItemFound)
                (Obj [("HashID", Str "4666fsffr")]) (Str "SomeTable") initialWorld)
    = Some (Resolved (Obj [])).
Proof.
  destruct (getItem_not_found_is_success plainRuntime (constClient noItemFound)
              (Obj [("HashID", Str "4666fsffr")]) (Str "SomeTable") initialWorld)
    as (req & Hreq & _ & _ & Hout); [reflexivity | reflexivity |].
  split; [|exact Hout].
  rewrite Hreq. discriminate.
Defined.

(** ** scan *)

(** C8, as stated, fails: the object [scan] rejects with has neither a
    [code] nor the call context. *)
Lemma scan_has_no_code_nor_context : ¬ scan_reports_not_implemented initialWorld.
Proof.
  intros (_ & e & Hsettled & Hcode & _).
  simpl in Hsettled. injection Hsettled as <-. discriminate Hcode.
Qed.

(** C8, amended: [scan] never calls the store and rejects with an object
    that holds the message "Not implemented" and nothing else: no [code]
    and no call context. *)
Theorem scan_rejects_with_message_only (w : World) :
  requests (scan w) = storeCalls w ∧
  settlement (scan w) =
    Some (Rejected (ErrorObj {| msg := "Not implemented"; code := None;
                                DBError := None; calledWith := None |})).
Proof. split; reflexivity. Qed.

(** ** setAWSRegion *)

(** C7, at the failing input: called with the empty string, [setAWSRegion]
    takes the first branch ([0 >= 0]), configures the empty region and
    prints nothing. *)
Theorem setAWSRegion_empty_sets_empty_region (rt : Runtime) (w : World) :
  setAWSRegion rt (Str "") w =
  (Normal tt, {| awsRegion := Str ""; console := console w; storeCalls := storeCalls w |}).
Proof. reflexivity. Qed.

(** X10: a region given as a string, empty or not, becomes the configured
    one; nothing is printed and the recorded calls stay as they were. *)
Lemma setAWSRegion_string (rt : Runtime) (region : string) (w : World) :
  setAWSRegion rt (Str region) w =
  (Normal tt, {| awsRegion := Str region; console := console w;
                 storeCalls := storeCalls w |}).
Proof.
  unfold setAWSRegion. rewrite exec_bind_eq. simpl.
  rewrite exec_bind_eq. unfold ge_zero. rewrite exec_bind_eq. simpl.
  by destruct (String.length region).
Qed.

(** The diagnostic branch is taken by an argument without a [length]. *)
Lemma setAWSRegion_no_length (rt : Runtime) (w : World) :
  setAWSRegion rt (Num 1) w =
  (Normal tt, {| awsRegion := awsRegion w;
                 console := console w ++ ["No region passed";
                                          "AWS region remains at default: eu-west-1"];
                 storeCalls := storeCalls w |}).
Proof. cbv -[app]. by rewrite <- app_assoc. Qed.

(** ** putItem *)

Lemma putItem_cases (rt : Runtime) (docClient : DocClient) (absentCondition : string)
    (item tableName overwrite : value) (w : World) :
  let st := putItem rt docClient absentCondition item tableName overwrite w in
  rejected_by_validation w st ∨
  (non_empty rt item ∧ non_empty rt tableName ∧
   ∃ req, requests st = storeCalls w ++ [(ClientPut, req)] ∧
          Item req = Some item ∧ TableName req = Some tableName).
Proof.
  intros st. exec_start st Hst.
  unfold putItem, new_Promise, docClient_put in Hst.
  check_length rt Hst item w.
  check_length rt Hst tableName w.
  right. do 2 (split; [done|]).
  exists (if negb (truthy (default_param (Bool false) overwrite))
          then set_ConditionExpression (Str absentCondition)
                 (set_Item item (set_TableName tableName empty_request))
          else set_Item item (set_TableName tableName empty_request)).
  split; [|by destruct (truthy _)].
  destruct (clientPut docClient _) as [[err|] data] in Hst; subst st;
    [by destruct (bool_decide _) | done].
Qed.

(** The guard of the current revision, for the text assigned at line 284. *)
Lemma putItem_guard_for_literal (rt : Runtime) (docClient : DocClient)
    (absentCondition : string) (item tableName : value) (w : World) :
  non_empty rt item →
  non_empty rt tableName →
  guards_against_overwrite docClient w
    (putItem rt docClient absentCondition item tableName) absentCondition.
Proof.
  intros Hitem Htable. split.
  - exists (set_ConditionExpression (Str absentCondition)
              (set_Item item (set_TableName tableName empty_request))).
    set (st := putItem _ _ _ _ _ _ _). exec_start st Hst.
    unfold putItem, new_Promise, docClient_put, rejection_code in *.
    exec_step Hst. rewrite Hitem in Hst. exec_step Hst.
    exec_step Hst. rewrite Htable in Hst. exec_step Hst.
    simpl in Hst.
    split; [|split; [reflexivity|]].
    + destruct (clientPut docClient _) as [[err|] data] in Hst; subst st;
        [by destruct (bool_decide _) | done].
    + intros err res Hreply Hcode. rewrite Hreply in Hst.
      subst st. simpl. rewrite Hcode. reflexivity.
  - exists (set_Item item (set_TableName tableName empty_request)).
    set (st := putItem _ _ _ _ _ _ _). exec_start st Hst.
    unfold putItem, new_Promise, docClient_put in *.
    exec_step Hst. rewrite Hitem in Hst. exec_step Hst.
    exec_step Hst. rewrite Htable in Hst. exec_step Hst.
    simpl in Hst.
    split; [|split; [reflexivity|]].
    + destruct (clientPut docClient _) as [[err|] data] in Hst; subst st;
        [by destruct (bool_decide _) | done].
    + intros res Hreply. rewrite Hreply in Hst. by subst st.
Qed.

(** The guard of the first revision (lines 30-69). *)
Lemma FirstRevision_putItem_guard (rt : Runtime) (docClient : DocClient)
    (item tableName : value) (w : World) :
  non_empty rt item →
  non_empty rt tableName →
  guards_against_overwrite docClient w
    (FirstRevision.putItem rt docClient item tableName)
    "attribute_not_exists(MachineID)".
Proof.
  intros Hitem Htable. split.
  - exists (set_ConditionExpression (Str "attribute_not_exists(MachineID)")
              (set_Item item (set_TableName tableName empty_request))).
    set (st := FirstRevision.putItem _ _ _ _ _ _). exec_start st Hst.
    unfold FirstRevision.putItem, new_Promise, docClient_put, rejection_code in *.
    exec_step Hst. rewrite Hitem in Hst. exec_step Hst.
    exec_step Hst. rewrite Htable in Hst. exec_step Hst.
    simpl in Hst.
    split; [|split; [reflexivity|]].
    + destruct (clientPut docClient _) as [[err|] data] in Hst; subst st;
        [by destruct (bool_decide _) | done].
    + intros err res Hreply Hcode. rewrite Hreply in Hst.
      subst st. simpl. rewrite Hcode. reflexivity.
  - exists (set_Item item (set_TableName tableName empty_request)).
    set (st := FirstRevision.putItem _ _ _ _ _ _). exec_start st Hst.
    unfold FirstRevision.putItem, new_Promise, docClient_put in *.
    exec_step Hst. rewrite Hitem in Hst. exec_step Hst.
    exec_step Hst. rewrite Htable in Hst. exec_step Hst.
    simpl in Hst.
    split; [|split; [reflexivity|]].
    + destruct (clientPut docClient _) as [[err|] data] in Hst; subst st;
        [by destruct (bool_decide _) | done].
    + intros res Hreply. rewrite Hreply in Hst. by subst st.
Qed.

(** C3: a call to [putItem] that passes validation sends one request.  With
    [overwrite = false] the request carries a condition that requires an
    attribute to be absent: [attribute_not_exists(MachineID)] in the first
    revision (line 46), and in the current revision a text that starts with
    [attribute_not_exists(], whatever line 284 holds after it; when the store
    rejects the request with ConditionalCheckFailedException the promise is
    rejected with code [ItemExists].  With [overwrite = true] the request
    carries no condition, and when the store accepts it the promise resolves
    with the store's response. *)
Theorem putItem_overwrite_guard (rt : Runtime) (docClient : DocClient)
    (item tableName : value) (w : World) :
  non_empty rt item →
  non_empty rt tableName →
  guards_against_overwrite docClient w
    (FirstRevision.putItem rt docClient item tableName)
    "attribute_not_exists(MachineID)" ∧
  ∀ argument,
    guards_against_overwrite docClient w
      (putItem rt docClient ("attribute_not_exists(" +:+ argument) item tableName)
      ("attribute_not_exists(" +:+ argument).
Proof.
  intros Hitem Htable. split.
  - by apply FirstRevision_putItem_guard.
  - intros argument. by apply putItem_guard_for_literal.
Qed.

Lemma putItem_overwrite_guard_witness :
  rejection_code (FirstRevision.putItem plainRuntime
                    (constClient (Some conditionFailed, Null))
                    (Obj [("MachineID", Num 22); ("MachinePPM", Num 70)]) (Str "Machines")
                    (Bool false) initialWorld) = Some "ItemExists" ∧
  (∃ req, requests (putItem plainRuntime (constClient (Some conditionFailed, Null))
                      ("attribute_not_exists(" +:+ "MachineID)")
                      (Obj [("MachineID", Num 22); ("MachinePPM", Num 70)])
                      (Str "Machines") (Bool false) initialWorld) = [(ClientPut, req)] ∧
          ConditionExpression req = Some (Str "attribute_not_exists(MachineID)")) ∧
  settlement (putItem plainRuntime (constClient (None, Obj []))
                ("attribute_not_exists(" +:+ "MachineID)")
                (Obj [("MachineID", Num 22); ("MachinePPM", Num 70)]) (Str "Machines")
                (Bool true) initialWorld) = Some (Resolved (Obj [])).
Proof.
  destruct (putItem_overwrite_guard plainRuntime (constClient (Some conditionFailed, Null))
              (Obj [("MachineID", Num 22); ("MachinePPM", Num 70)]) (Str "Machines")
              initialWorld) as [[(req1 & _ & _ & Hexists) _] Hcurrent];
    [reflexivity | reflexivity |].
  destruct (Hcurrent "MachineID)") as [(req2 & Hreq2 & Hcond2 & _) _].
  destruct (putItem_overwrite_guard plainRuntime (constClient (None, Obj []))
              (Obj [("MachineID", Num 22); ("MachinePPM", Num 70)]) (Str "Machines")
              initialWorld) as [_ Haccepted]; [reflexivity | reflexivity |].
  destruct (Haccepted "MachineID)") as [_ (req3 & _ & _ & Hok)].
  split; [exact (Hexists conditionFailed Null eq_refl eq_refl)|].
  split; [exists req2; split; [exact Hreq2 | exact Hcond2]|].
  exact (Hok (Obj []) eq_refl).
Defined.

(** ** deleteItem and query *)

Lemma deleteItem_cases (rt : Runtime) (docClient : DocClient)
    (itemKey tableName deleteCondition deleteParameters : value) (w : World) :
  let st := deleteItem rt docClient itemKey tableName deleteCondition deleteParameters w in
  rejected_by_validation w st ∨
  (non_empty rt itemKey ∧ non_empty rt tableName ∧
   non_empty rt deleteCondition ∧ non_empty rt deleteParameters ∧
   ∃ req, requests st = storeCalls w ++ [(ClientDelete, req)] ∧ Key req = Some itemKey).
Proof.
  intros st. exec_start st Hst.
  unfold deleteItem, new_Promise, docClient_delete in Hst.
  check_length rt Hst itemKey w.
  check_length rt Hst tableName w.
  check_length rt Hst deleteCondition w.
  check_length rt Hst deleteParameters w.
  right. do 4 (split; [done|]).
  eexists. split;
    [destruct (clientDelete docClient _) as [[err|] data] in Hst; by subst st
    |reflexivity].
Qed.

Lemma query_cases (rt : Runtime) (docClient : DocClient)
    (conditionExpression expressionAttributeNames expressionAttributeValues
       tableName indexName : value) (w : World) :
  let st := query rt docClient conditionExpression expressionAttributeNames
              expressionAttributeValues tableName indexName w in
  rejected_by_validation w st ∨
  (non_empty rt conditionExpression ∧ non_empty rt tableName ∧
   non_empty rt expressionAttributeNames ∧ non_empty rt expressionAttributeValues ∧
   ∃ req, requests st = storeCalls w ++ [(ClientQuery, req)]).
Proof.
  intros st. exec_start st Hst.
  unfold query, new_Promise, docClient_query in Hst.
  check_length rt Hst conditionExpression w.
  check_length rt Hst tableName w.
  check_length rt Hst expressionAttributeNames w.
  check_length rt Hst expressionAttributeValues w.
  exec_step Hst.
  destruct (outcome (length_gt_zero rt _)) as [supplied| |e] eqn:Hindex;
    cbv beta iota in Hst.
  - right. do 4 (split; [done|]).
    exec_step Hst. eexists.
    destruct (clientQuery docClient _) as [[err|] data] in Hst; by subst st.
  - by apply length_gt_zero_not_returned in Hindex.
  - left. subst st. split; [reflexivity|]. eexists. split; [reflexivity | exact I].
Qed.

(** ** updateItem *)

(** The loop over the update fields ends in one of three ways: it yields
    the expression and the values and leaves the state alone; it throws and
    leaves the state alone; or it rejects with [InvalidData] and returns. *)
Lemma update_loop_cases (rt : Runtime) (errorObj : list (string * value))
    (entries : list (string * value)) (updateExpression : string)
    (expressionAttributeValues : list (string * value)) (st : PState) :
  settlement st = None →
  match update_loop rt errorObj entries updateExpression expressionAttributeValues st with
  | (Normal _, st') => st' = st
  | (Thrown _, st') => st' = st
  | (Returned, st') =>
      requests st' = requests st ∧
      ∃ e, settlement st' = Some (Rejected (ErrorObj e)) ∧
           code e = Some "InvalidData" ∧ is_Some (calledWith e)
  end.
Proof.
  intros Hunsettled.
  revert updateExpression expressionAttributeValues.
  induction entries as [|[paramIndex param] rest IH]; intros ue eav; [done|].
  cbn [update_loop].
  rewrite exec_bind_eq, get_prop_run.
  destruct (outcome (get_prop param "fieldName")) as [fieldName| |e] eqn:Hname;
    [|by apply get_prop_not_returned in Hname|done].
  destruct fieldName;
    try (rewrite exec_bind_eq, to_string_run;
         destruct (outcome (to_string rt _)) as [name| |e] eqn:Hstr;
           [|by apply to_string_not_returned in Hstr|done];
         cbv beta iota;
         rewrite exec_bind_eq, get_prop_run;
         destruct (outcome (get_prop param "fieldValue")) as [fieldValue| |e] eqn:Hval;
           [|by apply get_prop_not_returned in Hval|done];
         apply IH).
  all: unfold console_error, reject, settle, modify, return_, requests; simpl;
    rewrite Hunsettled; eauto.
Qed.

(** Runs one check [if (!v || v.length <= 0) return reject(...)]. *)
Ltac check_presence rt H v w :=
  exec_step H;
  let E := fresh "Hpresent" in
  destruct (presence_test rt v) as [[|]| |?] eqn:E;
  [ exec_step H; left; subst; split; [reflexivity | eexists; split; [reflexivity | simpl; eauto ]]
  | exec_step H
  | exfalso; exact (presence_test_not_returned rt v E)
  | cbv beta iota in H; left; subst; split; [reflexivity | eexists; split; [reflexivity | exact I ]] ].

(** The last statement of [updateItem]: the call on the store and its
    callback. *)
Ltac update_finish st H :=
  unfold update_settled, update_request; cbv zeta; subst st;
  (split; [by destruct (clientUpdate _ _) as [[?|] ?]; [destruct (bool_decide _)|] |]);
  destruct (clientUpdate _ _) as [[?|] ?];
    [destruct (bool_decide _)|]; simpl; eauto 10.

Lemma updateItem_cases (rt : Runtime) (docClient : DocClient)
    (itemKey tableName updateParams conditionExpression : value) (w : World) :
  let st := updateItem rt docClient itemKey tableName updateParams conditionExpression w in
  let errorObj := update_calledWith itemKey tableName updateParams
                    (default_param (Str "") conditionExpression) in
  rejected_by_validation w st ∨
  (present rt itemKey ∧ present rt updateParams ∧ present rt tableName ∧
   requests st = storeCalls w ∧
   ∃ r, settlement st = Some (Rejected r) ∧
        match r with
        | ErrorObj e => code e = Some "InvalidData"
        | Exception _ => True
        end) ∨
  (present rt itemKey ∧ present rt updateParams ∧ present rt tableName ∧
   ∃ updateExpression expressionAttributeValues condition,
     update_loop rt errorObj (for_in updateParams) "set" []
         {| settlement := None; world := w |}
       = (Normal (updateExpression, expressionAttributeValues),
          {| settlement := None; world := w |}) ∧
     built_condition rt (default_param (Str "") conditionExpression) condition ∧
     let req := update_request itemKey tableName updateExpression
                  expressionAttributeValues condition in
     requests st = storeCalls w ++ [(ClientUpdate, req)] ∧
     update_settled st (clientUpdate docClient req)).
Proof.
  intros st errorObj. exec_start st Hst.
  unfold updateItem, new_Promise, docClient_update in Hst.
  fold (update_calledWith itemKey tableName updateParams
          (default_param (Str "") conditionExpression)) in Hst.
  fold errorObj in Hst.
  check_presence rt Hst itemKey w.
  check_presence rt Hst updateParams w.
  check_presence rt Hst tableName w.
  right.
  rewrite exec_bind_eq in Hst.
  pose proof (update_loop_cases rt errorObj (for_in updateParams) "set" []
                {| settlement := None; world := w |} eq_refl) as Hloop.
  destruct (update_loop rt errorObj (for_in updateParams) "set" [] _)
    as [[[ue eav]| |e] st1] eqn:Eloop.
  - subst st1. exec_step Hst.
    destruct (outcome (length_gt_zero rt _)) as [[|]| |e] eqn:Hextra;
      cbv beta iota in Hst.
    + rewrite exec_bind_eq in Hst. exec_step Hst.
      destruct (outcome (to_string rt _)) as [extra| |e] eqn:Hstr;
        cbv beta iota in Hst.
      * right. do 3 (split; [done|]).
        exists ue, eav, (requireItemExistsExpression +:+ ", " +:+ extra).
        split; [done|]. split; [right; eauto|].
        update_finish st Hst.
      * by apply to_string_not_returned in Hstr.
      * left. do 3 (split; [done|]). subst st.
        split; [reflexivity|]. eexists. split; [reflexivity | exact I].
    + rewrite exec_bind_eq in Hst. cbv beta iota delta [mret Exec_ret] in Hst.
      right. do 3 (split; [done|]).
      exists ue, eav, requireItemExistsExpression.
      split; [done|]. split; [left; eauto|].
      update_finish st Hst.
    + by apply length_gt_zero_not_returned in Hextra.
    + left. do 3 (split; [done|]). subst st.
      split; [reflexivity|]. eexists. split; [reflexivity | exact I].
  - destruct Hloop as (Hcalls & e & Hsettled & Hcode & _).
    left. do 3 (split; [done|]). subst st. cbv beta iota.
    split; [exact Hcalls|]. exists (ErrorObj e). by split.
  - subst st1. left. do 3 (split; [done|]). subst st.
    split; [reflexivity|]. eexists. split; [reflexivity | exact I].
Qed.

(** A list with one more call is not the list. *)
Lemma one_more_call {A} (l : list A) (x : A) : l ≠ l ++ [x].
Proof.
  intros H. apply (f_equal length) in H. rewrite length_app in H. simpl in H. lia.
Qed.

Lemma length_gt_zero_Str (rt : Runtime) (s : string) :
  outcome (length_gt_zero rt (Str s)) = Normal (negb (String.eqb s "")).
Proof. by destruct s. Qed.

(** A call to [updateItem] that reached the store went through the whole
    executor. *)
Lemma updateItem_reached_store (rt : Runtime) (docClient : DocClient)
    (itemKey tableName updateParams conditionExpression : value) (w : World)
    (call : ClientOp * RequestParams) :
  requests (updateItem rt docClient itemKey tableName updateParams conditionExpression w)
    = storeCalls w ++ [call] →
  ∃ updateExpression expressionAttributeValues condition,
    update_loop rt
        (update_calledWith itemKey tableName updateParams
           (default_param (Str "") conditionExpression))
        (for_in updateParams) "set" [] {| settlement := None; world := w |}
      = (Normal (updateExpression, expressionAttributeValues),
         {| settlement := None; world := w |}) ∧
    built_condition rt (default_param (Str "") conditionExpression) condition ∧
    call = (ClientUpdate, update_request itemKey tableName updateExpression
                            expressionAttributeValues condition) ∧
    update_settled
      (updateItem rt docClient itemKey tableName updateParams conditionExpression w)
      (clientUpdate docClient call.2).
Proof.
  intros Hreached.
  destruct (updateItem_cases rt docClient itemKey tableName updateParams
              conditionExpression w)
    as [[Hnone _] | [(_ & _ & _ & Hnone & _) | (_ & _ & _ & ue & eav & ceb & Hloop & Hcond & Hreq & Hout)]].
  - rewrite Hnone in Hreached. by apply one_more_call in Hreached.
  - rewrite Hnone in Hreached. by apply one_more_call in Hreached.
  - cbv zeta in Hreq, Hout. rewrite Hreq in Hreached.
    apply app_inv_head in Hreached. injection Hreached as <-.
    exists ue, eav, ceb. done.
Qed.

(** C2: in every request [updateItem] sends, the condition begins with the
    predicate that the key attribute exists.  A non-empty condition of the
    caller follows that predicate after a comma and a space, and does not
    replace it; without one, the condition is the predicate alone. *)
Theorem updateItem_condition_keeps_base (rt : Runtime) (docClient : DocClient)
    (itemKey tableName updateParams conditionExpression : value) (w : World)
    (call : ClientOp * RequestParams) :
  requests (updateItem rt docClient itemKey tableName updateParams conditionExpression w)
    = storeCalls w ++ [call] →
  ∃ rest,
    ConditionExpression call.2 = Some (Str (requireItemExistsExpression +:+ rest)) ∧
    (∀ extra, conditionExpression = Str extra → extra ≠ "" → rest = ", " +:+ extra) ∧
    (conditionExpression = Undefined ∨ conditionExpression = Str "" → rest = "").
Proof.
  intros Hreached.
  destruct (updateItem_reached_store _ _ _ _ _ _ _ _ Hreached)
    as (ue & eav & ceb & _ & Hcond & -> & _).
  destruct Hcond as [[Hno ->] | (Hyes & extra & Hstr & ->)].
  - exists "". split; [reflexivity|]. split; [|done].
    intros extra -> Hne. simpl in Hno. rewrite length_gt_zero_Str in Hno.
    destruct extra; [done|discriminate].
  - exists (", " +:+ extra). split; [reflexivity|]. split.
    + intros extra' -> _. simpl in Hstr. by injection Hstr as <-.
    + intros [-> | ->]; discriminate Hyes.
Qed.


Lemma updateItem_condition_keeps_base_witness :
  ∃ call,
    requests (updateItem plainRuntime (constClient (None, Obj [])) sampleKey
                (Str "Machines") sampleFields (Str "MachinePPM < :limit") initialWorld)
      = [call] ∧
    ConditionExpression call.2
      = Some (Str "attribute_exists(MachineID), MachinePPM < :limit").
Proof.
  eexists. split; [reflexivity|].
  destruct (updateItem_condition_keeps_base plainRuntime (constClient (None, Obj []))
              sampleKey (Str "Machines") sampleFields (Str "MachinePPM < :limit")
              initialWorld _ eq_refl) as (rest & Hcond & Hextra & _).
  rewrite (Hextra "MachinePPM < :limit" eq_refl) in Hcond by discriminate.
  exact Hcond.
Defined.


(** The same store accepts an update that carries no condition. *)
Lemma emptyStore_accepts_unconditioned :
  clientUpdate emptyStore empty_request = (None, Obj []).
Proof. reflexivity. Qed.


(** ** The attribute the existence conditions name *)

Lemma FirstRevision_putItem_reached_store (rt : Runtime) (docClient : DocClient)
    (item tableName overwite : value) (w : World) (call : ClientOp * RequestParams) :
  requests (FirstRevision.putItem rt docClient item tableName overwite w)
    = storeCalls w ++ [call] →
  call = (ClientPut,
          if negb (truthy (default_param (Bool false) overwite))
          then set_ConditionExpression (Str "attribute_not_exists(MachineID)")
                 (set_Item item (set_TableName tableName empty_request))
          else set_Item item (set_TableName tableName empty_request)).
Proof.
  intros Hreached.
  set (st := FirstRevision.putItem rt docClient item tableName overwite w) in *.
  assert (rejected_by_validation w st ∨
          requests st = storeCalls w ++
            [(ClientPut,
              if negb (truthy (default_param (Bool false) overwite))
              then set_ConditionExpression (Str "attribute_not_exists(MachineID)")
                     (set_Item item (set_TableName tableName empty_request))
              else set_Item item (set_TableName tableName empty_request))])
    as [[Hnone _] | Hone].
  { clear Hreached. exec_start st Hst.
    unfold FirstRevision.putItem, new_Promise, docClient_put in Hst.
    check_length rt Hst item w.
    check_length rt Hst tableName w.
    right.
    destruct (clientPut docClient _) as [[err|] data] in Hst; subst st;
      [by destruct (bool_decide _) | done]. }
  - rewrite Hnone in Hreached. by apply one_more_call in Hreached.
  - rewrite Hone in Hreached. by apply app_inv_head in Hreached as [= <-].
Qed.

(** C10: the conditions name the attribute [MachineID] whatever the item or
    the key holds: the request [putItem] (lines 30-69) sends when overwriting
    is not allowed has the condition [attribute_not_exists(MachineID)], and
    the condition of every request [updateItem] sends starts with
    [attribute_exists(MachineID)]. *)
Theorem conditions_name_MachineID (rt : Runtime) (docClient : DocClient)
    (item itemKey tableName overwite updateParams conditionExpression : value)
    (w : World) (putCall updateCall : ClientOp * RequestParams) :
  truthy (default_param (Bool false) overwite) = false →
  requests (FirstRevision.putItem rt docClient item tableName overwite w)
    = storeCalls w ++ [putCall] →
  requests (updateItem rt docClient itemKey tableName updateParams conditionExpression w)
    = storeCalls w ++ [updateCall] →
  ConditionExpression putCall.2 = Some (Str "attribute_not_exists(MachineID)") ∧
  ∃ rest, ConditionExpression updateCall.2
            = Some (Str ("attribute_exists(MachineID)" +:+ rest)).
Proof.
  intros Hno Hput Hupdate. split.
  - apply FirstRevision_putItem_reached_store in Hput as ->.
    by rewrite Hno.
  - destruct (updateItem_reached_store _ _ _ _ _ _ _ _ Hupdate)
      as (ue & eav & ceb & _ & Hcond & -> & _).
    destruct Hcond as [[_ ->] | (_ & extra & _ & ->)].
    + by exists "".
    + by exists (", " +:+ extra).
Qed.

Lemma conditions_name_MachineID_witness :
  ∃ putCall updateCall : ClientOp * RequestParams,
    requests (FirstRevision.putItem plainRuntime (constClient (None, Obj []))
                (Obj [("HashID", Str "4666fsffr")]) (Str "SomeTable") Undefined
                initialWorld) = [putCall] ∧
    requests (updateItem plainRuntime (constClient (None, Obj []))
                (Obj [("HashID", Str "4666fsffr")]) (Str "SomeTable") sampleFields
                Undefined initialWorld) = [updateCall] ∧
    ConditionExpression putCall.2 = Some (Str "attribute_not_exists(MachineID)") ∧
    ∃ rest, ConditionExpression updateCall.2
              = Some (Str ("attribute_exists(MachineID)" +:+ rest)).
Proof.
  eexists _, _. do 2 (split; [reflexivity|]).
  exact (conditions_name_MachineID plainRuntime (constClient (None, Obj []))
           (Obj [("HashID", Str "4666fsffr")]) (Obj [("HashID", Str "4666fsffr")])
           (Str "SomeTable") Undefined sampleFields Undefined initialWorld _ _
           eq_refl eq_refl eq_refl).
Defined.

(** ** The update expression and its values *)

Lemma string_app_assoc (s1 s2 s3 : string) : (s1 +:+ s2) +:+ s3 = s1 +:+ s2 +:+ s3.
Proof.
  induction s1 as [|c s1 IH]; [done|].
  change (String c ((s1 +:+ s2) +:+ s3) = String c (s1 +:+ s2 +:+ s3)).
  by f_equal.
Qed.

Lemma string_app_nil_r (s : string) : s +:+ "" = s.
Proof.
  induction s as [|c s IH]; [done|].
  change (String c (s +:+ "") = String c s).
  by f_equal.
Qed.

Lemma pretty_index_zero (i : nat) : pretty i = "0" ↔ i = 0%nat.
Proof.
  split; [|by intros ->].
  intros H. by apply (inj (pretty : nat → string)).
Qed.

Lemma update_loop_from (rt : Runtime) (errorObj : list (string * value)) (k : nat)
    (params : list value) (fields : list (string * value))
    (updateExpression : string) (obj : list (string * value)) (st : PState) :
  Forall2 (update_field rt) params fields →
  update_loop rt errorObj (imap (λ i x, (pretty (k + i)%nat, x)) params)
    updateExpression obj st
  = (Normal (updateExpression +:+ clauses_from k fields, set_values fields obj), st).
Proof.
  intros Hfields. revert k updateExpression obj.
  induction Hfields as [|param [name v] params fields Hfield _ IH];
    intros k ue obj.
  - simpl. by rewrite string_app_nil_r.
  - destruct Hfield as (fieldName & Hname & Hdef & Hnotnull & Hstr & Hval).
    simpl in Hstr, Hval.
    rewrite imap_cons. cbn [update_loop].
    rewrite exec_bind_eq, get_prop_run, Hname. cbv beta iota.
    assert (Hnext :
      update_loop rt errorObj (imap ((λ i x, (pretty (k + i)%nat, x)) ∘ S) params)
        ((if bool_decide (pretty (k + 0)%nat ≠ "0") then ue +:+ "," else ue)
           +:+ " " +:+ name +:+ " = :" +:+ name)
        (obj_set (":" +:+ name) v obj) st
      = (Normal (ue +:+ clauses_from k ((name, v) :: fields),
                 set_values ((name, v) :: fields) obj), st)).
    { rewrite (imap_ext _ (λ i x, (pretty (S k + i)%nat, x)))
        by (intros i x _; simpl; do 2 f_equal; lia).
      rewrite IH. do 2 f_equal. simpl. unfold clause.
      rewrite Nat.add_0_r.
      destruct (decide (k = 0%nat)) as [->|Hk].
      - simpl. by rewrite !string_app_assoc.
      - rewrite !bool_decide_eq_true_2; [|done|by rewrite pretty_index_zero].
        by rewrite !string_app_assoc. }
    destruct fieldName; try done;
      rewrite exec_bind_eq, to_string_run, Hstr; cbv beta iota;
      rewrite exec_bind_eq, get_prop_run, Hval; cbv beta iota;
      exact Hnext.
Qed.

Lemma clauses_from_succ (k : nat) (fields : list (string * value)) :
  clauses_from (S k) fields =
  match fields with
  | [] => ""
  | _ => ", " +:+ String.concat ", " (clause <$> fields.*1)
  end.
Proof.
  revert k. induction fields as [|field rest IH]; intros k; [done|].
  cbn [clauses_from]. rewrite IH.
  destruct rest as [|next rest]; simpl.
  - by rewrite string_app_nil_r.
  - reflexivity.
Qed.

Lemma own_prop_obj_set (name key : string) (v : value) (obj : list (string * value)) :
  own_prop key (obj_set name v obj) =
  if decide (name = key) then Some v else own_prop key obj.
Proof.
  induction obj as [|[k w] obj IH]; simpl.
  - by destruct (decide (name = key)).
  - destruct (decide (k = name)) as [->|Hne]; simpl.
    + by destruct (decide (name = key)).
    + destruct (decide (k = key)) as [->|]; [|done].
      by rewrite decide_False.
Qed.

Lemma elem_of_obj_set_keys (name key : string) (v : value) (obj : list (string * value)) :
  key ∈ (obj_set name v obj).*1 ↔ key = name ∨ key ∈ obj.*1.
Proof.
  induction obj as [|[k w] obj IH]; simpl.
  - rewrite list_elem_of_singleton, elem_of_nil. tauto.
  - destruct (decide (k = name)) as [->|Hne]; simpl.
    + rewrite !elem_of_cons. tauto.
    + rewrite !elem_of_cons, IH. tauto.
Qed.

Lemma NoDup_obj_set_keys (name : string) (v : value) (obj : list (string * value)) :
  NoDup obj.*1 → NoDup (obj_set name v obj).*1.
Proof.
  induction obj as [|[k w] obj IH]; simpl; intros Hnodup.
  - apply NoDup_singleton.
  - destruct (decide (k = name)) as [->|Hne]; [done|]. simpl.
    apply NoDup_cons in Hnodup as [Hk Hnodup]. apply NoDup_cons. split; [|auto].
    rewrite elem_of_obj_set_keys. intros [?|?]; done.
Qed.

Lemma set_values_spec (fields obj : list (string * value)) :
  NoDup obj.*1 →
  NoDup (set_values fields obj).*1 ∧
  (∀ key, key ∈ (set_values fields obj).*1 ↔
          key ∈ obj.*1 ∨ key ∈ ((λ name, ":" +:+ name) <$> fields.*1)) ∧
  (∀ key, own_prop key (set_values fields obj) =
          foldl (λ m field, <[":" +:+ field.1 := field.2]> m)
            (list_to_map obj : gmap string value) fields !! key).
Proof.
  revert obj. induction fields as [|[name v] fields IH]; intros obj Hnodup.
  - simpl. split; [done|]. split; [intros key; rewrite elem_of_nil; tauto|].
    intros key. induction obj as [|[k w] obj IHobj]; [done|].
    simpl. apply NoDup_cons in Hnodup as [_ Hnodup].
    rewrite lookup_insert. destruct (decide (k = key)); [done|]. by apply IHobj.
  - simpl.
    destruct (IH (obj_set (":" +:+ name) v obj)) as (Hnd & Hkeys & Hlookup);
      [by apply NoDup_obj_set_keys|].
    split; [done|]. split.
    + intros key. rewrite Hkeys, elem_of_obj_set_keys, elem_of_cons. tauto.
    + intros key. rewrite Hlookup. f_equal. apply (f_equal (λ m, foldl _ m fields)).
      apply map_eq. intros key'.
      rewrite lookup_insert.
      assert (Hobj : ∀ o : list (string * value),
                (list_to_map o : gmap string value) !! key' = own_prop key' o).
      { induction o as [|[k w] o IHo]; [done|].
        simpl. rewrite lookup_insert. by destruct (decide (k = key')). }
      by rewrite !Hobj, own_prop_obj_set.
Qed.

Lemma set_expression_clauses (fields : list (string * value)) :
  fields ≠ [] → "set" +:+ clauses_from 0 fields = set_expression fields.*1.
Proof.
  destruct fields as [|field rest]; [done|]. intros _.
  cbn [clauses_from]. rewrite clauses_from_succ.
  destruct rest as [|next rest]; [|reflexivity].
  unfold set_expression. simpl. by rewrite string_app_nil_r.
Qed.

Lemma present_fields (rt : Runtime) (params : list value) :
  params ≠ [] → present rt (Arr params).
Proof. by destruct params. Qed.

(** With arguments that pass every check, [updateItem] sends the request
    built from the fields. *)
Lemma updateItem_validated (rt : Runtime) (docClient : DocClient)
    (itemKey tableName conditionExpression : value) (condition : string)
    (params : list value) (fields : list (string * value)) (w : World) :
  params ≠ [] →
  Forall2 (update_field rt) params fields →
  present rt itemKey →
  present rt tableName →
  default_param (Str "") conditionExpression = Str condition →
  requests (updateItem rt docClient itemKey tableName (Arr params) conditionExpression w)
    = storeCalls w ++
      [(ClientUpdate, update_request itemKey tableName (set_expression fields.*1)
                        (set_values fields []) (condition_for condition))] ∧
  rejection_code (updateItem rt docClient itemKey tableName (Arr params)
                    conditionExpression w) ≠ Some "InvalidData".
Proof.
  intros Hne Hfields Hkey Htable Hcond.
  pose proof (present_fields rt params Hne) as Hparams.
  assert (Hnonempty : fields ≠ []).
  { intros ->. by apply Forall2_nil_inv_r in Hfields. }
  set (st := updateItem _ _ _ _ _ _ _). exec_start st Hst.
  unfold updateItem, new_Promise, docClient_update in Hst.
  rewrite Hcond in Hst.
  exec_step Hst. rewrite Hkey in Hst. exec_step Hst.
  exec_step Hst. rewrite Hparams in Hst. exec_step Hst.
  exec_step Hst. rewrite Htable in Hst. exec_step Hst.
  rewrite exec_bind_eq in Hst.
  change (for_in (Arr params)) with (imap (λ i x, (pretty (0 + i)%nat, x)) params) in Hst.
  rewrite (update_loop_from rt _ 0 params fields) in Hst by done.
  rewrite set_expression_clauses in Hst by done.
  cbv beta iota in Hst.
  exec_step Hst. rewrite length_gt_zero_Str in Hst. cbv beta iota in Hst.
  rewrite exec_bind_eq in Hst.
  assert (Hbuilt :
    ∀ s : PState,
      (if negb (String.eqb condition "")
       then extra ← to_string rt (Str condition);
            mret (requireItemExistsExpression +:+ ", " +:+ extra)
       else mret requireItemExistsExpression) s = (Normal (condition_for condition), s)).
  { intros s. unfold condition_for. by destruct (negb _). }
  rewrite Hbuilt in Hst. cbv beta iota in Hst.
  rewrite exec_bind_eq in Hst.
  unfold update_request, rejection_code.
  destruct (clientUpdate docClient _) as [[err|] data] in Hst; subst st;
    [by destruct (bool_decide _) | done].
Qed.

(** C1: for a non-empty array of update fields that all have a defined,
    non-null [fieldName], [updateItem] (called with a key, a table name and
    a condition that pass its checks) sends one request whose
    [UpdateExpression] is [set <name1> = :<name1>, <name2> = :<name2>, ...],
    one clause per field in the order given, separated by commas, and whose
    [ExpressionAttributeValues] has exactly one entry per distinct field
    name, under the key [:<name>], holding the value of the last field of
    that name. *)
Theorem updateItem_builds_set_expression (rt : Runtime) (docClient : DocClient)
    (itemKey tableName conditionExpression : value) (condition : string)
    (params : list value) (fields : list (string * value)) (w : World) :
  params ≠ [] →
  Forall2 (update_field rt) params fields →
  present rt itemKey →
  present rt tableName →
  default_param (Str "") conditionExpression = Str condition →
  ∃ req expressionAttributeValues,
    requests (updateItem rt docClient itemKey tableName (Arr params) conditionExpression w)
      = storeCalls w ++ [(ClientUpdate, req)] ∧
    UpdateExpression req = Some (set_expression fields.*1) ∧
    ExpressionAttributeValues req = Some (Obj expressionAttributeValues) ∧
    NoDup expressionAttributeValues.*1 ∧
    length expressionAttributeValues = length (remove_dups fields.*1) ∧
    ∀ key, own_prop key expressionAttributeValues = attribute_values fields !! key.
Proof.
  intros Hne Hfields Hkey Htable Hcond.
  destruct (set_values_spec fields [] (NoDup_nil_2)) as (Hnodup & Hkeys & Hlookup).
  destruct (updateItem_validated rt docClient itemKey tableName conditionExpression
              condition params fields w Hne Hfields Hkey Htable Hcond) as [Hreq _].
  eexists _, (set_values fields []).
  split; [exact Hreq|].
  do 2 (split; [reflexivity|]). split; [done|]. split; [|done].
  rewrite <- (length_fmap fst (set_values fields [])).
  rewrite <- (length_fmap (λ name, ":" +:+ name) (remove_dups fields.*1)).
  apply Permutation_length, NoDup_Permutation; [done| |].
  - apply NoDup_fmap_2; [apply _|apply NoDup_remove_dups].
  - intros key. rewrite Hkeys, elem_of_nil, !list_elem_of_fmap.
    split.
    + intros [[]|(name & -> & Hin)]. exists name. by rewrite elem_of_remove_dups.
    + intros (name & -> & Hin). right. exists name. by rewrite <- elem_of_remove_dups.
Qed.

Lemma updateItem_builds_set_expression_witness :
  ∃ req values,
    requests (updateItem plainRuntime (constClient (None, Obj [])) sampleKey
                (Str "Machines") (Arr duplicateFields) Undefined initialWorld)
      = [(ClientUpdate, req)] ∧
    UpdateExpression req = Some "set a = :a, b = :b, a = :a" ∧
    ExpressionAttributeValues req = Some (Obj values) ∧
    length values = 2%nat ∧
    own_prop ":a" values = Some (Num 3) ∧
    own_prop ":b" values = Some (Num 2).
Proof.
  destruct (updateItem_builds_set_expression plainRuntime (constClient (None, Obj []))
              sampleKey (Str "Machines") Undefined "" duplicateFields
              [("a", Num 1); ("b", Num 2); ("a", Num 3)] initialWorld)
    as (req & values & Hreq & Hexpr & Hvalues & _ & Hlen & Hlookup).
  - discriminate.
  - repeat constructor; eexists; repeat split; try reflexivity; discriminate.
  - reflexivity.
  - reflexivity.
  - reflexivity.
  - exists req, values. split; [exact Hreq|]. split; [exact Hexpr|].
    split; [exact Hvalues|]. split; [exact Hlen|].
    split; [exact (Hlookup ":a") | exact (Hlookup ":b")].
Defined.

(** ** Calls with an empty or missing mandatory argument *)

Lemma missing_not_non_empty (rt : Runtime) (v : value) :
  missing_or_empty_argument v = true → ¬ non_empty rt v.
Proof. by destruct v as [| |b|z|[|c s]|[|x l]|props]. Qed.

Lemma missing_not_present (rt : Runtime) (v : value) :
  missing_or_empty_argument v = true → ¬ present rt v.
Proof. by destruct v as [| |b|z|[|c s]|[|x l]|props]. Qed.

(** C4, as stated, fails: [getItem] called with an empty key is rejected
    with an object that has no [code]. *)
Lemma empty_key_is_not_InvalidData :
  ¬ fails_with_InvalidData initialWorld
      (invoke plainRuntime (constClient noItemFound) "attribute_not_exists(MachineID)"
         (CallGetItem (Str "") (Str "SomeTable")) initialWorld).
Proof. intros [_ Hcode]. discriminate Hcode. Qed.

(** C4, amended: a call of any of the five operations with an empty or
    missing mandatory argument makes no call on the store and is rejected;
    the rejection bears no error code: it is the thrown TypeError or an
    object with a message and the echoed arguments only. *)
Theorem missing_argument_rejected_before_store (rt : Runtime) (docClient : DocClient)
    (absentCondition : string) (call : Invocation) (w : World) :
  Exists (λ v, missing_or_empty_argument v = true) (mandatory call) →
  rejected_by_validation w (invoke rt docClient absentCondition call w) ∧
  rejection_code (invoke rt docClient absentCondition call w) = None.
Proof.
  intros Hmissing.
  assert (Hrejected : rejected_by_validation w (invoke rt docClient absentCondition call w)).
  { destruct call; simpl in *; rewrite ?Exists_cons, Exists_nil in Hmissing.
    - destruct (putItem_cases rt docClient absentCondition item tableName overwrite w)
        as [H | (H1 & H2 & _)]; [done|].
      destruct Hmissing as [H|[H|[]]]; by apply (missing_not_non_empty rt) in H.
    - destruct (updateItem_cases rt docClient itemKey tableName updateParams
                  conditionExpression w)
        as [H | [(H1 & H2 & H3 & _) | (H1 & H2 & H3 & _)]]; [done| |];
        destruct Hmissing as [H|[H|[H|[]]]]; by apply (missing_not_present rt) in H.
    - destruct (deleteItem_cases rt docClient itemKey tableName deleteCondition
                  deleteParameters w)
        as [H | (H1 & H2 & H3 & H4 & _)]; [done|].
      destruct Hmissing as [H|[H|[H|[H|[]]]]]; by apply (missing_not_non_empty rt) in H.
    - destruct (getItem_cases rt docClient itemKey tableName w)
        as [H | (H1 & H2 & _)]; [done|].
      destruct Hmissing as [H|[H|[]]]; by apply (missing_not_non_empty rt) in H.
    - destruct (query_cases rt docClient conditionExpression expressionAttributeNames
                  expressionAttributeValues tableName indexName w)
        as [H | (H1 & H2 & H3 & H4 & _)]; [done|].
      destruct Hmissing as [H|[H|[H|[H|[]]]]]; by apply (missing_not_non_empty rt) in H. }
  split; [done|].
  destruct Hrejected as (_ & r & Hsettled & Hreason).
  unfold rejection_code. rewrite Hsettled.
  destruct r as [e|e]; [by destruct Hreason|done].
Qed.

Lemma missing_argument_rejected_before_store_witness :
  requests (invoke plainRuntime (constClient noItemFound) "attribute_not_exists(MachineID)"
              (CallQuery (Str "#id = :id") (Obj [("#id", Str "MachineID")]) (Obj [])
                 (Str "") Undefined) initialWorld) = [] ∧
  rejection_code (invoke plainRuntime (constClient noItemFound)
                    "attribute_not_exists(MachineID)"
                    (CallQuery (Str "#id = :id") (Obj [("#id", Str "MachineID")]) (Obj [])
                       (Str "") Undefined) initialWorld) = None.
Proof.
  destruct (missing_argument_rejected_before_store plainRuntime (constClient noItemFound)
              "attribute_not_exists(MachineID)"
              (CallQuery (Str "#id = :id") (Obj [("#id", Str "MachineID")]) (Obj [])
                 (Str "") Undefined) initialWorld) as [[Hcalls _] Hcode].
  - simpl. rewrite !Exists_cons. right. right. right. left. reflexivity.
  - split; [exact Hcalls | exact Hcode].
Defined.

(** ** Values without a length *)

Lemma present_non_empty (rt : Runtime) (v : value) : present rt v → non_empty rt v.
Proof.
  unfold present, non_empty, presence_test, missing_or_empty.
  destruct (truthy v); [|done].
  by rewrite length_le_zero_run.
Qed.

Lemma putItem_validated (rt : Runtime) (docClient : DocClient) (absentCondition : string)
    (item tableName overwrite : value) (w : World) :
  non_empty rt item → non_empty rt tableName →
  reaches_store_with w (putItem rt docClient absentCondition item tableName overwrite w)
    ClientPut Item item.
Proof.
  intros Hitem Htable.
  exists (if negb (truthy (default_param (Bool false) overwrite))
          then set_ConditionExpression (Str absentCondition)
                 (set_Item item (set_TableName tableName empty_request))
          else set_Item item (set_TableName tableName empty_request)).
  set (st := putItem _ _ _ _ _ _ _). exec_start st Hst.
  unfold putItem, new_Promise, docClient_put, rejection_code in *.
  exec_step Hst. rewrite Hitem in Hst. exec_step Hst.
  exec_step Hst. rewrite Htable in Hst. exec_step Hst.
  split; [|split; [by destruct (truthy _)|]];
    destruct (clientPut docClient _) as [[err|] data] in Hst; subst st;
      try done; by destruct (bool_decide _).
Qed.

Lemma getItem_validated (rt : Runtime) (docClient : DocClient)
    (itemKey tableName : value) (w : World) :
  non_empty rt itemKey → non_empty rt tableName →
  reaches_store_with w (getItem rt docClient itemKey tableName w) ClientGet Key itemKey.
Proof.
  intros Hkey Htable.
  exists (set_TableName tableName (set_Key itemKey empty_request)).
  set (st := getItem _ _ _ _ _). exec_start st Hst.
  unfold getItem, new_Promise, docClient_get, rejection_code in *.
  exec_step Hst. rewrite Hkey in Hst. exec_step Hst.
  exec_step Hst. rewrite Htable in Hst. exec_step Hst.
  destruct (clientGet docClient _) as [[err|] data] in Hst; by subst st.
Qed.

Lemma deleteItem_validated (rt : Runtime) (docClient : DocClient)
    (itemKey tableName deleteCondition deleteParameters : value) (w : World) :
  non_empty rt itemKey → non_empty rt tableName →
  non_empty rt deleteCondition → non_empty rt deleteParameters →
  reaches_store_with w
    (deleteItem rt docClient itemKey tableName deleteCondition deleteParameters w)
    ClientDelete Key itemKey.
Proof.
  intros Hkey Htable Hcondition Hparameters.
  exists (set_ExpressionAttributeValues deleteParameters
            (set_ConditionExpression deleteCondition
               (set_TableName tableName (set_Key itemKey empty_request)))).
  set (st := deleteItem _ _ _ _ _ _ _). exec_start st Hst.
  unfold deleteItem, new_Promise, docClient_delete, rejection_code in *.
  exec_step Hst. rewrite Hkey in Hst. exec_step Hst.
  exec_step Hst. rewrite Htable in Hst. exec_step Hst.
  exec_step Hst. rewrite Hcondition in Hst. exec_step Hst.
  exec_step Hst. rewrite Hparameters in Hst. exec_step Hst.
  destruct (clientDelete docClient _) as [[err|] data] in Hst; by subst st.
Qed.

(** C9, as stated, fails: [updateItem] rejects the key [null] with
    "no Item Key supplied" although no argument has a length that is not
    positive ([null] has no length at all). *)
Lemma updateItem_rejects_null_key :
  ¬ rejects_only_numeric_length plainRuntime (constClient noItemFound)
      "attribute_not_exists(MachineID)"
      (CallUpdateItem Null (Str "Machines") sampleFields Undefined) initialWorld.
Proof.
  intros Hclaim.
  assert (Hrejected :
    ∃ e, settlement (invoke plainRuntime (constClient noItemFound)
                       "attribute_not_exists(MachineID)"
                       (CallUpdateItem Null (Str "Machines") sampleFields Undefined)
                       initialWorld)
           = Some (Rejected (ErrorObj e)) ∧ code e = None)
    by (eexists; split; reflexivity).
  apply Hclaim in Hrejected. simpl in Hrejected.
  rewrite !Exists_cons, Exists_nil in Hrejected.
  destruct Hrejected as [(n & H & Hn) | [(n & H & Hn) | [(n & H & Hn) | []]]].
  - discriminate H.
  - injection H as <-. simpl in Hn. lia.
  - injection H as <-. simpl in Hn. lia.
Qed.

(** C9, amended: the check [v.length <= 0] never rejects a value whose
    [length] is undefined.  So an empty plain object passed as the item or
    the key, the other arguments being valid, passes the validation of
    [putItem], [getItem], [deleteItem] and [updateItem]: the store is called
    with it and the outcome is not [InvalidData]. *)
Theorem empty_object_passes_validation (rt : Runtime) (docClient : DocClient)
    (absentCondition : string) (tableName : value) (w : World) :
  present rt tableName →
  (∀ v, outcome (get_prop v "length") = Normal Undefined → non_empty rt v) ∧
  (∀ overwrite,
     reaches_store_with w
       (putItem rt docClient absentCondition (Obj []) tableName overwrite w)
       ClientPut Item (Obj [])) ∧
  reaches_store_with w (getItem rt docClient (Obj []) tableName w) ClientGet Key (Obj []) ∧
  (∀ deleteCondition deleteParameters,
     non_empty rt deleteCondition → non_empty rt deleteParameters →
     reaches_store_with w
       (deleteItem rt docClient (Obj []) tableName deleteCondition deleteParameters w)
       ClientDelete Key (Obj [])) ∧
  (∀ params fields conditionExpression condition,
     params ≠ [] → Forall2 (update_field rt) params fields →
     default_param (Str "") conditionExpression = Str condition →
     reaches_store_with w
       (updateItem rt docClient (Obj []) tableName (Arr params) conditionExpression w)
       ClientUpdate Key (Obj [])).
Proof.
  intros Htable. pose proof (present_non_empty rt tableName Htable) as Htable'.
  split; [apply length_test_no_length|].
  split; [intros overwrite; by apply putItem_validated|].
  split; [by apply getItem_validated|].
  split; [intros; by apply deleteItem_validated|].
  intros params fields conditionExpression condition Hne Hfields Hcond.
  destruct (updateItem_validated rt docClient (Obj []) tableName conditionExpression
              condition params fields w Hne Hfields eq_refl Htable Hcond)
    as [Hreq Hcode].
  eexists. split; [exact Hreq|]. by split.
Qed.

Lemma empty_object_passes_validation_witness :
  reaches_store_with initialWorld
    (getItem plainRuntime (constClient noItemFound) (Obj []) (Str "SomeTable") initialWorld)
    ClientGet Key (Obj []) ∧
  reaches_store_with initialWorld
    (putItem plainRuntime (constClient (None, Obj [])) "attribute_not_exists(MachineID)"
       (Obj []) (Str "SomeTable") Undefined initialWorld)
    ClientPut Item (Obj []).
Proof.
  destruct (empty_object_passes_validation plainRuntime (constClient noItemFound)
              "attribute_not_exists(MachineID)" (Str "SomeTable") initialWorld eq_refl)
    as (_ & _ & Hget & _).
  destruct (empty_object_passes_validation plainRuntime (constClient (None, Obj []))
              "attribute_not_exists(MachineID)" (Str "SomeTable") initialWorld eq_refl)
    as (_ & Hput & _).
  split; [exact Hget | exact (Hput Undefined)].
Defined.


(** ** How every call ends *)

(** Closes a case in which the executor ended before the call on the
    store. *)
Ltac early_exit st :=
  left; subst st; unfold ended_early, requests, validation_error; simpl;
  split; [reflexivity|]; split; [reflexivity|];
  eexists; split; [reflexivity|]; simpl; eauto.

(** Runs one check [if (v.length <= 0) return reject(...)]. *)
Ltac ends_length rt H v st :=
  exec_step H;
  let E := fresh "Hlen" in
  destruct (length_test rt v) as [[|]| |?] eqn:E;
  [ exec_step H; early_exit st
  | exec_step H
  | exfalso; exact (length_test_not_returned rt v E)
  | cbv beta iota in H; early_exit st ].

Lemma getItem_ends (rt : Runtime) (docClient : DocClient)
    (itemKey tableName : value) (w : World) :
  ended_early w (getItem rt docClient itemKey tableName w) ∨
  ended_by_store w docClient ClientGet (getItem rt docClient itemKey tableName w).
Proof.
  set (st := getItem _ _ _ _ _). exec_start st Hst.
  unfold getItem, new_Promise, docClient_get in Hst.
  ends_length rt Hst itemKey st.
  ends_length rt Hst tableName st.
  right. eexists. unfold store_reply.
  destruct (clientGet docClient _) as [[err|] data] eqn:Hreply in Hst; subst st;
    (split; [reflexivity|]); rewrite Hreply; simpl; eauto 10.
Qed.

Lemma putItem_ends (rt : Runtime) (docClient : DocClient) (absentCondition : string)
    (item tableName overwrite : value) (w : World) :
  ended_early w (putItem rt docClient absentCondition item tableName overwrite w) ∨
  ended_by_store w docClient ClientPut
    (putItem rt docClient absentCondition item tableName overwrite w).
Proof.
  set (st := putItem _ _ _ _ _ _ _). exec_start st Hst.
  unfold putItem, new_Promise, docClient_put in Hst.
  ends_length rt Hst item st.
  ends_length rt Hst tableName st.
  right. eexists. unfold store_reply, store_error_code.
  destruct (clientPut docClient _) as [[err|] data] eqn:Hreply in Hst; subst st.
  - destruct (bool_decide (err_code err = _)) eqn:Hcode;
      (split; [reflexivity|]); rewrite Hreply, Hcode; simpl; eauto 10.
  - (split; [reflexivity|]). rewrite Hreply. simpl. eauto 10.
Qed.

Lemma deleteItem_ends (rt : Runtime) (docClient : DocClient)
    (itemKey tableName deleteCondition deleteParameters : value) (w : World) :
  ended_early w
    (deleteItem rt docClient itemKey tableName deleteCondition deleteParameters w) ∨
  ended_by_store w docClient ClientDelete
    (deleteItem rt docClient itemKey tableName deleteCondition deleteParameters w).
Proof.
  set (st := deleteItem _ _ _ _ _ _ _). exec_start st Hst.
  unfold deleteItem, new_Promise, docClient_delete in Hst.
  ends_length rt Hst itemKey st.
  ends_length rt Hst tableName st.
  ends_length rt Hst deleteCondition st.
  ends_length rt Hst deleteParameters st.
  right. eexists. unfold store_reply.
  destruct (clientDelete docClient _) as [[err|] data] eqn:Hreply in Hst; subst st;
    (split; [reflexivity|]); rewrite Hreply; simpl; eauto 10.
Qed.

Lemma query_ends (rt : Runtime) (docClient : DocClient)
    (conditionExpression expressionAttributeNames expressionAttributeValues
       tableName indexName : value) (w : World) :
  ended_early w
    (query rt docClient conditionExpression expressionAttributeNames
       expressionAttributeValues tableName indexName w) ∨
  ended_by_store w docClient ClientQuery
    (query rt docClient conditionExpression expressionAttributeNames
       expressionAttributeValues tableName indexName w).
Proof.
  set (st := query _ _ _ _ _ _ _ _). exec_start st Hst.
  unfold query, new_Promise, docClient_query in Hst.
  ends_length rt Hst conditionExpression st.
  ends_length rt Hst tableName st.
  ends_length rt Hst expressionAttributeNames st.
  ends_length rt Hst expressionAttributeValues st.
  exec_step Hst.
  destruct (outcome (length_gt_zero rt _)) as [supplied| |e] eqn:Hindex;
    cbv beta iota in Hst.
  - right. exec_step Hst. eexists. unfold store_reply.
    destruct (clientQuery docClient _) as [[err|] data] eqn:Hreply in Hst; subst st;
      (split; [reflexivity|]); rewrite Hreply; simpl; eauto 10.
  - by apply length_gt_zero_not_returned in Hindex.
  - early_exit st.
Qed.

(** The loop of [updateItem] leaves the state alone unless it meets a field
    without name: then it prints a line, rejects with [InvalidData] and
    returns. *)
Lemma update_loop_ends (rt : Runtime) (errorObj : list (string * value))
    (entries : list (string * value)) (updateExpression : string)
    (expressionAttributeValues : list (string * value)) (w : World) :
  match update_loop rt errorObj entries updateExpression expressionAttributeValues
          {| settlement := None; world := w |} with
  | (Normal _, st') | (Thrown _, st') => st' = {| settlement := None; world := w |}
  | (Returned, st') =>
      st' = {| settlement := Some (Rejected (ErrorObj (invalid_data_error errorObj)));
               world := {| awsRegion := awsRegion w;
                           console := console w ++ [undefined_parameters_line];
                           storeCalls := storeCalls w |} |}
  end.
Proof.
  revert updateExpression expressionAttributeValues.
  induction entries as [|[paramIndex param] rest IH]; intros ue eav; [done|].
  cbn [update_loop].
  rewrite exec_bind_eq, get_prop_run.
  destruct (outcome (get_prop param "fieldName")) as [fieldName| |e] eqn:Hname;
    [|by apply get_prop_not_returned in Hname|done].
  destruct fieldName;
    try (rewrite exec_bind_eq, to_string_run;
         destruct (outcome (to_string rt _)) as [name| |e] eqn:Hstr;
           [|by apply to_string_not_returned in Hstr|done];
         cbv beta iota;
         rewrite exec_bind_eq, get_prop_run;
         destruct (outcome (get_prop param "fieldValue")) as [fieldValue| |e] eqn:Hval;
           [|by apply get_prop_not_returned in Hval|done];
         apply IH).
  all: reflexivity.
Qed.

Ltac ends_presence rt H v st :=
  exec_step H;
  let E := fresh "Hpresent" in
  destruct (presence_test rt v) as [[|]| |?] eqn:E;
  [ exec_step H; early_exit st
  | exec_step H
  | exfalso; exact (presence_test_not_returned rt v E)
  | cbv beta iota in H; early_exit st ].

Lemma updateItem_ends (rt : Runtime) (docClient : DocClient)
    (itemKey tableName updateParams conditionExpression : value) (w : World) :
  ended_early w
    (updateItem rt docClient itemKey tableName updateParams conditionExpression w) ∨
  ended_by_store w docClient ClientUpdate
    (updateItem rt docClient itemKey tableName updateParams conditionExpression w).
Proof.
  set (st := updateItem _ _ _ _ _ _ _). exec_start st Hst.
  unfold updateItem, new_Promise, docClient_update in Hst.
  ends_presence rt Hst itemKey st.
  ends_presence rt Hst updateParams st.
  ends_presence rt Hst tableName st.
  rewrite exec_bind_eq in Hst.
  match type of Hst with
  | context [update_loop rt ?eo ?en ?ue ?eav ?s0] =>
      pose proof (update_loop_ends rt eo en ue eav w) as Hloop;
      destruct (update_loop rt eo en ue eav s0) as [[[ue' eav']| |e] st1]
  end; subst st1.
  - exec_step Hst.
    destruct (outcome (length_gt_zero rt _)) as [[|]| |e] eqn:Hextra;
      cbv beta iota in Hst.
    + rewrite exec_bind_eq in Hst. exec_step Hst.
      destruct (outcome (to_string rt _)) as [extra| |e] eqn:Hstr;
        cbv beta iota in Hst.
      * right. exec_step Hst. eexists. unfold store_reply, store_error_code.
        destruct (clientUpdate docClient _) as [[err|] data] eqn:Hreply in Hst;
          subst st.
        -- destruct (bool_decide (err_code err = _)) eqn:Hcode;
             (split; [reflexivity|]); rewrite Hreply, Hcode; simpl; eauto 10.
        -- (split; [reflexivity|]). rewrite Hreply. simpl. eauto 10.
      * by apply to_string_not_returned in Hstr.
      * early_exit st.
    + rewrite exec_bind_eq in Hst. cbv beta iota delta [mret Exec_ret] in Hst.
      right. exec_step Hst. eexists. unfold store_reply, store_error_code.
      destruct (clientUpdate docClient _) as [[err|] data] eqn:Hreply in Hst;
        subst st.
      * destruct (bool_decide (err_code err = _)) eqn:Hcode;
          (split; [reflexivity|]); rewrite Hreply, Hcode; simpl; eauto 10.
      * (split; [reflexivity|]). rewrite Hreply. simpl. eauto 10.
    + by apply length_gt_zero_not_returned in Hextra.
    + early_exit st.
  - early_exit st.
  - cbv beta iota in Hst. early_exit st.
Qed.

Lemma invoke_ends (rt : Runtime) (docClient : DocClient) (absentCondition : string)
    (call : Invocation) (w : World) :
  ended_early w (invoke rt docClient absentCondition call w) ∨
  ended_by_store w docClient (client_op call)
    (invoke rt docClient absentCondition call w).
Proof.
  destruct call; simpl.
  - apply putItem_ends.
  - apply updateItem_ends.
  - apply deleteItem_ends.
  - apply getItem_ends.
  - apply query_ends.
Qed.


(** ** deleteItem *)

Lemma deleteItem_run (rt : Runtime) (docClient : DocClient)
    (itemKey tableName deleteCondition deleteParameters : value) (w : World) :
  non_empty rt itemKey → non_empty rt tableName →
  non_empty rt deleteCondition → non_empty rt deleteParameters →
  deleteItem rt docClient itemKey tableName deleteCondition deleteParameters w =
  let req := delete_request itemKey tableName deleteCondition deleteParameters in
  {| settlement :=
       Some (match clientDelete docClient req with
             | (None, data) => Resolved data
             | (Some err, _) =>
                 Rejected (ErrorObj (store_error "Delete failed on dynamoDB" err
                   [("itemKey", itemKey); ("tableName", tableName);
                    ("deleteCondition", deleteCondition);
                    ("deleteParameters", deleteParameters)]))
             end);
     world := with_call w ClientDelete req |}.
Proof.
  intros Hkey Htable Hcondition Hparameters.
  set (st := deleteItem _ _ _ _ _ _ _). exec_start st Hst.
  unfold deleteItem, new_Promise, docClient_delete in Hst.
  exec_step Hst. rewrite Hkey in Hst. exec_step Hst.
  exec_step Hst. rewrite Htable in Hst. exec_step Hst.
  exec_step Hst. rewrite Hcondition in Hst. exec_step Hst.
  exec_step Hst. rewrite Hparameters in Hst. exec_step Hst.
  cbv zeta. unfold delete_request.
  change (set_ExpressionAttributeValues deleteParameters
            (set_ConditionExpression deleteCondition
               (set_TableName tableName (set_Key itemKey empty_request))))
    with (delete_request itemKey tableName deleteCondition deleteParameters) in Hst.
  unfold delete_request in Hst.
  destruct (clientDelete docClient _) as [[err|] data]; by subst st.
Qed.

(** X1: a call to [deleteItem] that passes validation sends exactly one
    request, made of the four arguments as they were passed: the condition
    is the caller's alone (no existence predicate is added) and no other
    field is set. *)
Theorem deleteItem_sends_arguments_as_passed (rt : Runtime) (docClient : DocClient)
    (itemKey tableName deleteCondition deleteParameters : value) (w : World) :
  non_empty rt itemKey → non_empty rt tableName →
  non_empty rt deleteCondition → non_empty rt deleteParameters →
  requests (deleteItem rt docClient itemKey tableName deleteCondition deleteParameters w)
  = storeCalls w ++
    [(ClientDelete,
      {| TableName := Some tableName; Item := None; Key := Some itemKey;
         ConditionExpression := Some deleteCondition;
         ExpressionAttributeValues := Some deleteParameters;
         UpdateExpression := None; KeyConditionExpression := None;
         ExpressionAttributeNames := None; IndexName := None |})].
Proof.
  intros Hkey Htable Hcondition Hparameters.
  by rewrite deleteItem_run.
Qed.

Lemma deleteItem_sends_arguments_as_passed_witness :
  requests (deleteItem plainRuntime (constClient (None, Obj [])) sampleKey (Str "Machines")
              (Str "attribute_exists(MachineID)") (Obj [(":limit", Num 70)]) initialWorld)
  = [(ClientDelete,
      {| TableName := Some (Str "Machines"); Item := None; Key := Some sampleKey;
         ConditionExpression := Some (Str "attribute_exists(MachineID)");
         ExpressionAttributeValues := Some (Obj [(":limit", Num 70)]);
         UpdateExpression := None; KeyConditionExpression := None;
         ExpressionAttributeNames := None; IndexName := None |})].
Proof.
  exact (deleteItem_sends_arguments_as_passed plainRuntime (constClient (None, Obj []))
           sampleKey (Str "Machines") (Str "attribute_exists(MachineID)")
           (Obj [(":limit", Num 70)]) initialWorld eq_refl eq_refl eq_refl eq_refl).
Defined.

(** X2: [deleteItem] does not tell the errors of the store apart: every
    error, a failed condition included, rejects with code [DBError] and the
    store's error as cause; a success resolves with the store's response. *)
Theorem deleteItem_errors_are_DBError (rt : Runtime) (docClient : DocClient)
    (itemKey tableName deleteCondition deleteParameters : value) (w : World) :
  non_empty rt itemKey → non_empty rt tableName →
  non_empty rt deleteCondition → non_empty rt deleteParameters →
  match clientDelete docClient
          (delete_request itemKey tableName deleteCondition deleteParameters) with
  | (None, data) =>
      settlement (deleteItem rt docClient itemKey tableName deleteCondition
                    deleteParameters w) = Some (Resolved data)
  | (Some err, _) =>
      ∃ e, settlement (deleteItem rt docClient itemKey tableName deleteCondition
                         deleteParameters w) = Some (Rejected (ErrorObj e)) ∧
           msg e = "Delete failed on dynamoDB" ∧
           code e = Some "DBError" ∧
           DBError e = Some (StoreError err)
  end.
Proof.
  intros Hkey Htable Hcondition Hparameters.
  rewrite deleteItem_run by done. cbv zeta.
  destruct (clientDelete docClient _) as [[err|] data]; simpl; eauto 10.
Qed.

Lemma deleteItem_errors_are_DBError_witness :
  rejection_code
    (deleteItem plainRuntime (constClient (Some conditionFailed, Null)) sampleKey
       (Str "Machines") (Str "attribute_exists(MachineID)") (Obj [(":limit", Num 70)])
       initialWorld) = Some "DBError".
Proof.
  destruct (deleteItem_errors_are_DBError plainRuntime
              (constClient (Some conditionFailed, Null)) sampleKey (Str "Machines")
              (Str "attribute_exists(MachineID)") (Obj [(":limit", Num 70)])
              initialWorld eq_refl eq_refl eq_refl eq_refl)
    as (e & Hsettled & _ & Hcode & _).
  unfold rejection_code. rewrite Hsettled. exact Hcode.
Defined.

(** ** query *)

Lemma query_run (rt : Runtime) (docClient : DocClient)
    (conditionExpression expressionAttributeNames expressionAttributeValues
       tableName indexName : value) (supplied : bool) (w : World) :
  non_empty rt conditionExpression → non_empty rt tableName →
  non_empty rt expressionAttributeNames → non_empty rt expressionAttributeValues →
  outcome (length_gt_zero rt (default_param (Str "") indexName)) = Normal supplied →
  query rt docClient conditionExpression expressionAttributeNames
    expressionAttributeValues tableName indexName w =
  let req := query_request conditionExpression expressionAttributeNames
               expressionAttributeValues tableName
               (if supplied then Some (default_param (Str "") indexName) else None) in
  {| settlement :=
       Some (match clientQuery docClient req with
             | (None, data) => Resolved data
             | (Some err, _) =>
                 Rejected (ErrorObj (store_error "Query failed on dynamoDB" err
                   [("conditionExpression", conditionExpression);
                    ("tableName", tableName);
                    ("expressionAttributeNames", expressionAttributeNames);
                    ("expressionAttributeValues", expressionAttributeValues)]))
             end);
     world := with_call w ClientQuery req |}.
Proof.
  intros Hcondition Htable Hnames Hvalues Hindex.
  set (st := query _ _ _ _ _ _ _ _). exec_start st Hst.
  unfold query, new_Promise, docClient_query in Hst.
  exec_step Hst. rewrite Hcondition in Hst. exec_step Hst.
  exec_step Hst. rewrite Htable in Hst. exec_step Hst.
  exec_step Hst. rewrite Hnames in Hst. exec_step Hst.
  exec_step Hst. rewrite Hvalues in Hst. exec_step Hst.
  exec_step Hst. rewrite Hindex in Hst. exec_step Hst.
  cbv zeta.
  assert (Hreq :
    (if supplied
     then set_IndexName (default_param (Str "") indexName)
            (set_ExpressionAttributeValues expressionAttributeValues
               (set_ExpressionAttributeNames expressionAttributeNames
                  (set_KeyConditionExpression conditionExpression
                     (set_TableName tableName empty_request))))
     else set_ExpressionAttributeValues expressionAttributeValues
            (set_ExpressionAttributeNames expressionAttributeNames
               (set_KeyConditionExpression conditionExpression
                  (set_TableName tableName empty_request))))
    = query_request conditionExpression expressionAttributeNames
        expressionAttributeValues tableName
        (if supplied then Some (default_param (Str "") indexName) else None))
    by (by destruct supplied).
  rewrite Hreq in Hst.
  destruct (clientQuery docClient _) as [[err|] data]; by subst st.
Qed.

(** X3: a call to [query] that passes validation sends one request with
    the key condition, the attribute names and values and the table name as
    passed; the request names an index only when a non-empty index name was
    given: without one, and with the empty string, it has no [IndexName]. *)
Theorem query_names_index_only_when_given (rt : Runtime) (docClient : DocClient)
    (conditionExpression expressionAttributeNames expressionAttributeValues
       tableName : value) (indexName : string) (w : World) :
  non_empty rt conditionExpression → non_empty rt tableName →
  non_empty rt expressionAttributeNames → non_empty rt expressionAttributeValues →
  requests (query rt docClient conditionExpression expressionAttributeNames
              expressionAttributeValues tableName (Str indexName) w)
    = storeCalls w ++
      [(ClientQuery,
        query_request conditionExpression expressionAttributeNames
          expressionAttributeValues tableName
          (if String.eqb indexName "" then None else Some (Str indexName)))] ∧
  requests (query rt docClient conditionExpression expressionAttributeNames
              expressionAttributeValues tableName Undefined w)
    = storeCalls w ++
      [(ClientQuery,
        query_request conditionExpression expressionAttributeNames
          expressionAttributeValues tableName None)].
Proof.
  intros Hcondition Htable Hnames Hvalues. split.
  - rewrite (query_run rt docClient _ _ _ _ (Str indexName)
               (negb (String.eqb indexName ""))) by (done || apply length_gt_zero_Str).
    by destruct (String.eqb indexName "").
  - by rewrite (query_run rt docClient _ _ _ _ Undefined false).
Qed.

Lemma query_names_index_only_when_given_witness :
  requests (query plainRuntime (constClient (None, Obj [])) (Str "#id = :id")
              (Obj [("#id", Str "MachineID")]) (Obj [(":id", Num 22)]) (Str "Machines")
              (Str "ByOperator") initialWorld)
    = [(ClientQuery,
        query_request (Str "#id = :id") (Obj [("#id", Str "MachineID")])
          (Obj [(":id", Num 22)]) (Str "Machines") (Some (Str "ByOperator")))] ∧
  requests (query plainRuntime (constClient (None, Obj [])) (Str "#id = :id")
              (Obj [("#id", Str "MachineID")]) (Obj [(":id", Num 22)]) (Str "Machines")
              Undefined initialWorld)
    = [(ClientQuery,
        query_request (Str "#id = :id") (Obj [("#id", Str "MachineID")])
          (Obj [(":id", Num 22)]) (Str "Machines") None)].
Proof.
  exact (query_names_index_only_when_given plainRuntime (constClient (None, Obj []))
           (Str "#id = :id") (Obj [("#id", Str "MachineID")]) (Obj [(":id", Num 22)])
           (Str "Machines") "ByOperator" initialWorld eq_refl eq_refl eq_refl eq_refl).
Defined.

(** X4: a [query] that reaches the store resolves with the store's response
    as it is when the store reports no error, and otherwise rejects with
    code [DBError], the message "Query failed on dynamoDB" and the store's
    error as cause. *)
Theorem query_outcome (rt : Runtime) (docClient : DocClient)
    (conditionExpression expressionAttributeNames expressionAttributeValues
       tableName indexName : value) (w : World) (req : RequestParams) :
  requests (query rt docClient conditionExpression expressionAttributeNames
              expressionAttributeValues tableName indexName w)
    = storeCalls w ++ [(ClientQuery, req)] →
  match clientQuery docClient req with
  | (None, data) =>
      settlement (query rt docClient conditionExpression expressionAttributeNames
                    expressionAttributeValues tableName indexName w)
        = Some (Resolved data)
  | (Some err, _) =>
      ∃ e, settlement (query rt docClient conditionExpression expressionAttributeNames
                         expressionAttributeValues tableName indexName w)
             = Some (Rejected (ErrorObj e)) ∧
           msg e = "Query failed on dynamoDB" ∧
           code e = Some "DBError" ∧
           DBError e = Some (StoreError err)
  end.
Proof.
  intros Hreached.
  destruct (query_cases rt docClient conditionExpression expressionAttributeNames
              expressionAttributeValues tableName indexName w)
    as [[Hnone _] | (Hcondition & Htable & Hnames & Hvalues & _)].
  { rewrite Hnone in Hreached. by apply one_more_call in Hreached. }
  destruct (outcome (length_gt_zero rt (default_param (Str "") indexName)))
    as [supplied| |e] eqn:Hindex.
  - revert Hreached. rewrite (query_run rt docClient _ _ _ _ indexName supplied) by done.
    cbv zeta. unfold requests, with_call. simpl. intros [= <-]%app_inv_head.
    destruct (clientQuery docClient _) as [[err|] data]; simpl; eauto 10.
  - by apply length_gt_zero_not_returned in Hindex.
  - exfalso. revert Hreached.
    set (st := query _ _ _ _ _ _ _ _). exec_start st Hst.
    unfold query, new_Promise, docClient_query in Hst.
    exec_step Hst. rewrite Hcondition in Hst. exec_step Hst.
    exec_step Hst. rewrite Htable in Hst. exec_step Hst.
    exec_step Hst. rewrite Hnames in Hst. exec_step Hst.
    exec_step Hst. rewrite Hvalues in Hst. exec_step Hst.
    exec_step Hst. rewrite Hindex in Hst. cbv beta iota in Hst.
    subst st. apply one_more_call.
Qed.

Lemma query_outcome_witness :
  rejection_code (query plainRuntime (constClient (Some throttled, Null)) (Str "#id = :id")
                    (Obj [("#id", Str "MachineID")]) (Obj [(":id", Num 22)])
                    (Str "Machines") Undefined initialWorld) = Some "DBError".
Proof.
  destruct (query_outcome plainRuntime (constClient (Some throttled, Null))
              (Str "#id = :id") (Obj [("#id", Str "MachineID")]) (Obj [(":id", Num 22)])
              (Str "Machines") Undefined initialWorld _ eq_refl)
    as (e & Hsettled & _ & Hcode & _).
  unfold rejection_code. rewrite Hsettled. exact Hcode.
Defined.

(** X5: an index name without [length] at all makes [query] throw: with
    [null] as index name (the default only replaces [undefined]) the promise
    is rejected with a TypeError and the store is not called, although the
    four mandatory arguments are valid. *)
Theorem query_null_index_throws (rt : Runtime) (docClient : DocClient)
    (conditionExpression expressionAttributeNames expressionAttributeValues
       tableName : value) (w : World) :
  non_empty rt conditionExpression → non_empty rt tableName →
  non_empty rt expressionAttributeNames → non_empty rt expressionAttributeValues →
  query rt docClient conditionExpression expressionAttributeNames
    expressionAttributeValues tableName Null w
  = {| settlement := Some (Rejected (Exception TypeError)); world := w |}.
Proof.
  intros Hcondition Htable Hnames Hvalues.
  set (st := query _ _ _ _ _ _ _ _). exec_start st Hst.
  unfold query, new_Promise, docClient_query in Hst.
  exec_step Hst. rewrite Hcondition in Hst. exec_step Hst.
  exec_step Hst. rewrite Htable in Hst. exec_step Hst.
  exec_step Hst. rewrite Hnames in Hst. exec_step Hst.
  exec_step Hst. rewrite Hvalues in Hst. exec_step Hst.
  exec_step Hst. by subst st.
Qed.

Lemma query_null_index_throws_witness :
  settlement (query plainRuntime (constClient (None, Obj [])) (Str "#id = :id")
                (Obj [("#id", Str "MachineID")]) (Obj [(":id", Num 22)]) (Str "Machines")
                Null initialWorld) = Some (Rejected (Exception TypeError)) ∧
  requests (query plainRuntime (constClient (None, Obj [])) (Str "#id = :id")
              (Obj [("#id", Str "MachineID")]) (Obj [(":id", Num 22)]) (Str "Machines")
              Null initialWorld) = [].
Proof.
  rewrite (query_null_index_throws plainRuntime (constClient (None, Obj []))
             (Str "#id = :id") (Obj [("#id", Str "MachineID")]) (Obj [(":id", Num 22)])
             (Str "Machines") initialWorld eq_refl eq_refl eq_refl eq_refl).
  split; reflexivity.
Defined.

(** ** putItem, beyond the key collision *)

Lemma putItem_run (rt : Runtime) (docClient : DocClient) (absentCondition : string)
    (item tableName overwrite : value) (w : World) :
  non_empty rt item → non_empty rt tableName →
  putItem rt docClient absentCondition item tableName overwrite w =
  let errorObj := [("item", item); ("TableName", tableName);
                   ("overwrite", default_param (Bool false) overwrite)] in
  let req := put_request item tableName
               (if truthy (default_param (Bool false) overwrite)
                then None else Some (Str absentCondition)) in
  {| settlement :=
       Some (match clientPut docClient req with
             | (None, res) => Resolved res
             | (Some err, _) =>
                 Rejected (ErrorObj
                   (if bool_decide (err_code err = ConditionalCheckFailedException)
                    then {| msg := "Item with that key already exists";
                            code := Some "ItemExists"; DBError := None;
                            calledWith := Some errorObj |}
                    else store_error "Put failed on dynamoDB" err errorObj))
             end);
     world := with_call w ClientPut req |}.
Proof.
  intros Hitem Htable.
  set (st := putItem _ _ _ _ _ _ _). exec_start st Hst.
  unfold putItem, new_Promise, docClient_put in Hst.
  exec_step Hst. rewrite Hitem in Hst. exec_step Hst.
  exec_step Hst. rewrite Htable in Hst. exec_step Hst.
  cbv zeta.
  assert (Hreq :
    (if negb (truthy (default_param (Bool false) overwrite))
     then set_ConditionExpression (Str absentCondition)
            (set_Item item (set_TableName tableName empty_request))
     else set_Item item (set_TableName tableName empty_request))
    = put_request item tableName
        (if truthy (default_param (Bool false) overwrite)
         then None else Some (Str absentCondition)))
    by (by destruct (truthy _)).
  rewrite Hreq in Hst.
  destruct (clientPut docClient _) as [[err|] res]; subst st;
    [by destruct (bool_decide _) | done].
Qed.

(** X6: [putItem] attaches its condition exactly when [overwrite], after
    its default [false], is falsy: a call without the third argument is
    guarded like one with [false], and any truthy value lifts the guard.
    The request holds the item and the table name as passed and nothing
    else. *)
Theorem putItem_guards_unless_overwrite_truthy (rt : Runtime) (docClient : DocClient)
    (absentCondition : string) (item tableName overwrite : value) (w : World) :
  non_empty rt item → non_empty rt tableName →
  requests (putItem rt docClient absentCondition item tableName overwrite w)
  = storeCalls w ++
    [(ClientPut,
      {| TableName := Some tableName; Item := Some item; Key := None;
         ConditionExpression :=
           if truthy (default_param (Bool false) overwrite)
           then None else Some (Str absentCondition);
         ExpressionAttributeValues := None; UpdateExpression := None;
         KeyConditionExpression := None; ExpressionAttributeNames := None;
         IndexName := None |})].
Proof.
  intros Hitem Htable. by rewrite putItem_run.
Qed.

Lemma putItem_guards_unless_overwrite_truthy_witness :
  (∃ req, requests (putItem plainRuntime (constClient (None, Obj []))
                      "attribute_not_exists(MachineID)" sampleKey (Str "Machines")
                      Undefined initialWorld) = [(ClientPut, req)] ∧
          ConditionExpression req = Some (Str "attribute_not_exists(MachineID)")) ∧
  (∃ req, requests (putItem plainRuntime (constClient (None, Obj []))
                      "attribute_not_exists(MachineID)" sampleKey (Str "Machines")
                      (Str "yes") initialWorld) = [(ClientPut, req)] ∧
          ConditionExpression req = None).
Proof.
  split; eexists; split.
  - exact (putItem_guards_unless_overwrite_truthy plainRuntime (constClient (None, Obj []))
             "attribute_not_exists(MachineID)" sampleKey (Str "Machines") Undefined
             initialWorld eq_refl eq_refl).
  - reflexivity.
  - exact (putItem_guards_unless_overwrite_truthy plainRuntime (constClient (None, Obj []))
             "attribute_not_exists(MachineID)" sampleKey (Str "Machines") (Str "yes")
             initialWorld eq_refl eq_refl).
  - reflexivity.
Defined.

(** X7: [putItem] classifies an error of the store by its code alone,
    whatever [overwrite] was: ConditionalCheckFailedException rejects with
    [ItemExists] and without a cause, also when overwriting was allowed and
    no condition was sent; every other error rejects with [DBError] and the
    store's error as cause.  A success resolves with the store's response. *)
Theorem putItem_classifies_by_error_code (rt : Runtime) (docClient : DocClient)
    (absentCondition : string) (item tableName overwrite : value) (w : World)
    (req : RequestParams) :
  requests (putItem rt docClient absentCondition item tableName overwrite w)
    = storeCalls w ++ [(ClientPut, req)] →
  match clientPut docClient req with
  | (None, res) =>
      settlement (putItem rt docClient absentCondition item tableName overwrite w)
        = Some (Resolved res)
  | (Some err, _) =>
      ∃ e, settlement (putItem rt docClient absentCondition item tableName overwrite w)
             = Some (Rejected (ErrorObj e)) ∧
           if bool_decide (err_code err = ConditionalCheckFailedException)
           then code e = Some "ItemExists" ∧ DBError e = None
           else code e = Some "DBError" ∧ DBError e = Some (StoreError err)
  end.
Proof.
  intros Hreached.
  destruct (putItem_cases rt docClient absentCondition item tableName overwrite w)
    as [[Hnone _] | (Hitem & Htable & _)].
  { rewrite Hnone in Hreached. by apply one_more_call in Hreached. }
  revert Hreached. rewrite putItem_run by done.
  cbv zeta. unfold requests, with_call. simpl. intros [= <-]%app_inv_head.
  destruct (clientPut docClient _) as [[err|] res]; [|done].
  eexists. split; [reflexivity|]. by destruct (bool_decide _).
Qed.

Lemma putItem_classifies_by_error_code_witness :
  rejection_code (putItem plainRuntime (constClient (Some conditionFailed, Null))
                    "attribute_not_exists(MachineID)" sampleKey (Str "Machines")
                    (Bool true) initialWorld) = Some "ItemExists" ∧
  rejection_code (putItem plainRuntime (constClient (Some throttled, Null))
                    "attribute_not_exists(MachineID)" sampleKey (Str "Machines")
                    (Bool false) initialWorld) = Some "DBError".
Proof.
  split.
  - destruct (putItem_classifies_by_error_code plainRuntime
                (constClient (Some conditionFailed, Null))
                "attribute_not_exists(MachineID)" sampleKey (Str "Machines")
                (Bool true) initialWorld _ eq_refl) as (e & Hsettled & Hcode & _).
    unfold rejection_code. rewrite Hsettled. exact Hcode.
  - destruct (putItem_classifies_by_error_code plainRuntime
                (constClient (Some throttled, Null))
                "attribute_not_exists(MachineID)" sampleKey (Str "Machines")
                (Bool false) initialWorld _ eq_refl) as (e & Hsettled & Hcode & _).
    unfold rejection_code. rewrite Hsettled. exact Hcode.
Defined.

(** ** updateItem and fields without a name *)

Lemma update_loop_prefix (rt : Runtime) (errorObj : list (string * value)) (k : nat)
    (params : list value) (fields : list (string * value))
    (rest : list (string * value))
    (updateExpression : string) (obj : list (string * value)) (st : PState) :
  Forall2 (update_field rt) params fields →
  update_loop rt errorObj (imap (λ i x, (pretty (k + i)%nat, x)) params ++ rest)
    updateExpression obj st
  = update_loop rt errorObj rest (updateExpression +:+ clauses_from k fields)
      (set_values fields obj) st.
Proof.
  intros Hfields. revert k updateExpression obj.
  induction Hfields as [|param [name v] params fields Hfield _ IH];
    intros k ue obj.
  - simpl. by rewrite string_app_nil_r.
  - destruct Hfield as (fieldName & Hname & Hdef & Hnotnull & Hstr & Hval).
    simpl in Hstr, Hval.
    rewrite imap_cons. cbn [app update_loop].
    rewrite exec_bind_eq, get_prop_run, Hname. cbv beta iota.
    assert (Hnext :
      update_loop rt errorObj
        (imap ((λ i x, (pretty (k + i)%nat, x)) ∘ S) params ++ rest)
        ((if bool_decide (pretty (k + 0)%nat ≠ "0") then ue +:+ "," else ue)
           +:+ " " +:+ name +:+ " = :" +:+ name)
        (obj_set (":" +:+ name) v obj) st
      = update_loop rt errorObj rest (ue +:+ clauses_from k ((name, v) :: fields))
          (set_values ((name, v) :: fields) obj) st).
    { rewrite (imap_ext _ (λ i x, (pretty (S k + i)%nat, x)))
        by (intros i x _; simpl; do 2 f_equal; lia).
      rewrite IH. f_equal. simpl. unfold clause.
      rewrite Nat.add_0_r.
      destruct (decide (k = 0%nat)) as [->|Hk].
      - simpl. by rewrite !string_app_assoc.
      - rewrite !bool_decide_eq_true_2; [|done|by rewrite pretty_index_zero].
        by rewrite !string_app_assoc. }
    destruct fieldName; try done;
      rewrite exec_bind_eq, to_string_run, Hstr; cbv beta iota;
      rewrite exec_bind_eq, get_prop_run, Hval; cbv beta iota;
      exact Hnext.
Qed.

(** The loop on an array whose first field without a proper [fieldName]
    comes after the fields [good]. *)
Lemma update_loop_at_bad_field (rt : Runtime) (errorObj : list (string * value))
    (good : list value) (fields : list (string * value)) (bad : value)
    (more : list value) (w : World) :
  Forall2 (update_field rt) good fields →
  update_loop rt errorObj (for_in (Arr (good ++ bad :: more))) "set" []
    {| settlement := None; world := w |}
  = match outcome (get_prop bad "fieldName") with
    | Normal Undefined | Normal Null =>
        (Returned,
         {| settlement := Some (Rejected (ErrorObj (invalid_data_error errorObj)));
            world := {| awsRegion := awsRegion w;
                        console := console w ++ [undefined_parameters_line];
                        storeCalls := storeCalls w |} |})
    | Thrown e => (Thrown e, {| settlement := None; world := w |})
    | _ =>
        update_loop rt errorObj (for_in (Arr (good ++ bad :: more))) "set" []
          {| settlement := None; world := w |}
    end.
Proof.
  intros Hgood.
  destruct (outcome (get_prop bad "fieldName")) as [[| |?|?|?|?|?]| |e] eqn:Hname;
    try reflexivity.
  all: change (for_in (Arr (good ++ bad :: more)))
         with (imap (λ i x, (pretty (0 + i)%nat, x)) (good ++ bad :: more));
       rewrite imap_app, (update_loop_prefix rt _ 0 good fields) by done;
       rewrite imap_cons; cbn [update_loop];
       rewrite exec_bind_eq, get_prop_run, Hname; reflexivity.
Qed.

Lemma present_fields_app (rt : Runtime) (good more : list value) (bad : value) :
  present rt (Arr (good ++ bad :: more)).
Proof. apply present_fields. by destruct good. Qed.

(** X8: when a field of the array has no [fieldName] (it is undefined or
    null) and the fields before it are proper, [updateItem] prints one line
    on the console, rejects with code [InvalidData] and does not call the
    store, whatever follows that field. *)
Theorem updateItem_rejects_unnamed_field (rt : Runtime) (docClient : DocClient)
    (itemKey tableName conditionExpression : value)
    (good : list value) (fields : list (string * value)) (bad : value)
    (more : list value) (w : World) :
  present rt itemKey →
  present rt tableName →
  Forall2 (update_field rt) good fields →
  outcome (get_prop bad "fieldName") = Normal Undefined ∨
  outcome (get_prop bad "fieldName") = Normal Null →
  updateItem rt docClient itemKey tableName (Arr (good ++ bad :: more))
    conditionExpression w
  = {| settlement :=
         Some (Rejected (ErrorObj
           {| msg := "Update failed on dynamoDB"; code := Some "InvalidData";
              DBError := Some (ErrorText "Passed parameters where undefined");
              calledWith :=
                Some (update_calledWith itemKey tableName (Arr (good ++ bad :: more))
                        (default_param (Str "") conditionExpression)) |}));
       world := {| awsRegion := awsRegion w;
                   console := console w ++
                     ["Unable to update Item, passed parameters where undefined."];
                   storeCalls := storeCalls w |} |}.
Proof.
  intros Hkey Htable Hgood Hbad.
  pose proof (present_fields_app rt good more bad) as Hparams.
  set (st := updateItem _ _ _ _ _ _ _). exec_start st Hst.
  unfold updateItem, new_Promise, docClient_update in Hst.
  exec_step Hst. rewrite Hkey in Hst. exec_step Hst.
  exec_step Hst. rewrite Hparams in Hst. exec_step Hst.
  exec_step Hst. rewrite Htable in Hst. exec_step Hst.
  rewrite exec_bind_eq in Hst.
  rewrite (update_loop_at_bad_field rt _ good fields bad more w Hgood) in Hst.
  destruct Hbad as [Hbad|Hbad]; rewrite Hbad in Hst; by subst st.
Qed.

Lemma updateItem_rejects_unnamed_field_witness :
  rejection_code
    (updateItem plainRuntime (constClient (None, Obj [])) sampleKey (Str "Machines")
       (Arr ([Obj [("fieldName", Str "MachinePPM"); ("fieldValue", Num 71)]] ++
             Obj [("name", Str "Operator"); ("value", Str "R. Curran")] :: []))
       Undefined initialWorld) = Some "InvalidData" ∧
  requests
    (updateItem plainRuntime (constClient (None, Obj [])) sampleKey (Str "Machines")
       (Arr ([Obj [("fieldName", Str "MachinePPM"); ("fieldValue", Num 71)]] ++
             Obj [("name", Str "Operator"); ("value", Str "R. Curran")] :: []))
       Undefined initialWorld) = [].
Proof.
  rewrite (updateItem_rejects_unnamed_field plainRuntime (constClient (None, Obj []))
             sampleKey (Str "Machines") Undefined
             [Obj [("fieldName", Str "MachinePPM"); ("fieldValue", Num 71)]]
             [("MachinePPM", Num 71)]
             (Obj [("name", Str "Operator"); ("value", Str "R. Curran")]) []
             initialWorld eq_refl eq_refl).
  - split; reflexivity.
  - repeat constructor. eexists. repeat split; try reflexivity; discriminate.
  - left. reflexivity.
Defined.

(** X9: an element of the array that is [null] or [undefined] is not
    reported as [InvalidData]: reading its [fieldName] throws, the promise
    is rejected with the TypeError, nothing is printed and the store is not
    called. *)
Theorem updateItem_throws_on_null_element (rt : Runtime) (docClient : DocClient)
    (itemKey tableName conditionExpression : value)
    (good : list value) (fields : list (string * value)) (bad : value)
    (more : list value) (w : World) :
  present rt itemKey →
  present rt tableName →
  Forall2 (update_field rt) good fields →
  bad = Null ∨ bad = Undefined →
  updateItem rt docClient itemKey tableName (Arr (good ++ bad :: more))
    conditionExpression w
  = {| settlement := Some (Rejected (Exception TypeError)); world := w |}.
Proof.
  intros Hkey Htable Hgood Hbad.
  pose proof (present_fields_app rt good more bad) as Hparams.
  set (st := updateItem _ _ _ _ _ _ _). exec_start st Hst.
  unfold updateItem, new_Promise, docClient_update in Hst.
  exec_step Hst. rewrite Hkey in Hst. exec_step Hst.
  exec_step Hst. rewrite Hparams in Hst. exec_step Hst.
  exec_step Hst. rewrite Htable in Hst. exec_step Hst.
  rewrite exec_bind_eq in Hst.
  rewrite (update_loop_at_bad_field rt _ good fields bad more w Hgood) in Hst.
  destruct Hbad as [->| ->]; by subst st.
Qed.

Lemma updateItem_throws_on_null_element_witness :
  settlement
    (updateItem plainRuntime (constClient (None, Obj [])) sampleKey (Str "Machines")
       (Arr ([] ++ Null :: [Obj [("fieldName", Str "MachinePPM"); ("fieldValue", Num 71)]]))
       Undefined initialWorld) = Some (Rejected (Exception TypeError)).
Proof.
  rewrite (updateItem_throws_on_null_element plainRuntime (constClient (None, Obj []))
             sampleKey (Str "Machines") Undefined [] [] Null
             [Obj [("fieldName", Str "MachinePPM"); ("fieldValue", Num 71)]]
             initialWorld eq_refl eq_refl).
  - reflexivity.
  - constructor.
  - by left.
Defined.


(** ** setAWSRegion, when no string is given *)

(** X11: [setAWSRegion] without a region, or with [null], throws a
    TypeError (reading [length]) and leaves the configuration and the
    console as they were. *)
Theorem setAWSRegion_throws_without_region (rt : Runtime) (regionName : value)
    (w : World) :
  regionName = Undefined ∨ regionName = Null →
  setAWSRegion rt regionName w = (Thrown TypeError, w).
Proof. by intros [-> | ->]. Qed.

Lemma setAWSRegion_throws_without_region_witness :
  setAWSRegion plainRuntime Undefined initialWorld = (Thrown TypeError, initialWorld).
Proof.
  apply (setAWSRegion_throws_without_region plainRuntime Undefined initialWorld).
  by left.
Defined.

(** X12: a region without a [length] (a number, a boolean, an object that
    has none) takes the other branch: the configured region stays what it
    was and two lines are printed, the second naming [eu-west-1] as the
    region that remains, whatever region is configured at that moment. *)
Theorem setAWSRegion_diagnostic_names_default (rt : Runtime) (regionName : value)
    (w : World) :
  outcome (get_prop regionName "length") = Normal Undefined →
  setAWSRegion rt regionName w =
  (Normal tt,
   {| awsRegion := awsRegion w;
      console := console w ++ ["No region passed";
                               "AWS region remains at default: eu-west-1"];
      storeCalls := storeCalls w |}).
Proof.
  intros Hlength. unfold setAWSRegion.
  rewrite exec_bind_eq, get_prop_run, Hlength. cbv beta iota.
  cbv -[app]. by rewrite <- app_assoc.
Qed.

Lemma setAWSRegion_diagnostic_names_default_witness :
  ∃ w,
    setAWSRegion plainRuntime (Str "us-east-1") initialWorld = (Normal tt, w) ∧
    awsRegion w = Str "us-east-1" ∧
    setAWSRegion plainRuntime (Obj [("region", Str "eu-central-1")]) w =
    (Normal tt,
     {| awsRegion := Str "us-east-1";
        console := ["No region passed"; "AWS region remains at default: eu-west-1"];
        storeCalls := [] |}).
Proof.
  eexists. split; [reflexivity|]. split; [reflexivity|].
  exact (setAWSRegion_diagnostic_names_default plainRuntime
           (Obj [("region", Str "eu-central-1")])
           {| awsRegion := Str "us-east-1"; console := []; storeCalls := [] |} eq_refl).
Defined.

(** ** Properties of all five operations *)

Lemma rejected_by_validation_early (w : World) (st : PState) :
  rejected_by_validation w st → ended_early w st →
  rejection_code st = None ∧ console (world st) = console w.
Proof.
  intros (_ & r & Hr & Hreason) (_ & _ & r' & Hr' & Hearly).
  rewrite Hr in Hr'. injection Hr' as <-.
  unfold rejection_code. rewrite Hr.
  destruct r as [e|e]; [|done].
  destruct Hreason as (Hcode & _). split; [done|].
  destruct Hearly as (_ & [[_ Hconsole] | [Hinvalid _]]); [done|].
  rewrite Hcode in Hinvalid. discriminate.
Qed.

(** Only [updateItem] can end early with a code or a line on the console. *)
Lemma early_without_code (rt : Runtime) (docClient : DocClient) (absentCondition : string)
    (call : Invocation) (w : World) :
  client_op call ≠ ClientUpdate →
  ended_early w (invoke rt docClient absentCondition call w) →
  rejection_code (invoke rt docClient absentCondition call w) = None ∧
  console (world (invoke rt docClient absentCondition call w)) = console w.
Proof.
  intros Hop Hearly. pose proof Hearly as (Hnone & _).
  destruct call; simpl in *; try done.
  - destruct (putItem_cases rt docClient absentCondition item tableName overwrite w)
      as [H | (_ & _ & req & Hreq & _)];
      [by apply rejected_by_validation_early|].
    rewrite Hnone in Hreq. by apply one_more_call in Hreq.
  - destruct (deleteItem_cases rt docClient itemKey tableName deleteCondition
                deleteParameters w) as [H | (_ & _ & _ & _ & req & Hreq & _)];
      [by apply rejected_by_validation_early|].
    rewrite Hnone in Hreq. by apply one_more_call in Hreq.
  - destruct (getItem_cases rt docClient itemKey tableName w)
      as [H | (_ & _ & Hreq & _)];
      [by apply rejected_by_validation_early|].
    cbv zeta in Hreq. rewrite Hnone in Hreq. by apply one_more_call in Hreq.
  - destruct (query_cases rt docClient conditionExpression expressionAttributeNames
                expressionAttributeValues tableName indexName w)
      as [H | (_ & _ & _ & _ & req & Hreq)];
      [by apply rejected_by_validation_early|].
    rewrite Hnone in Hreq. by apply one_more_call in Hreq.
Qed.

(** X13: every call of an operation asks the store at most once, on the
    method of the client that belongs to the operation, and keeps the
    record of the earlier calls. *)
Theorem one_store_call_at_most (rt : Runtime) (docClient : DocClient)
    (absentCondition : string) (call : Invocation) (w : World) :
  requests (invoke rt docClient absentCondition call w) = storeCalls w ∨
  ∃ req, requests (invoke rt docClient absentCondition call w)
           = storeCalls w ++ [(client_op call, req)].
Proof.
  destruct (invoke_ends rt docClient absentCondition call w)
    as [(Hnone & _) | (req & Hreq & _)]; eauto.
Qed.

(** X14: the promise of an operation resolves exactly when the store was
    asked and reported no error, and then with the store's response
    unchanged. *)
Theorem resolves_exactly_on_store_success (rt : Runtime) (docClient : DocClient)
    (absentCondition : string) (call : Invocation) (w : World) (v : value) :
  settlement (invoke rt docClient absentCondition call w) = Some (Resolved v) ↔
  ∃ req, requests (invoke rt docClient absentCondition call w)
           = storeCalls w ++ [(client_op call, req)] ∧
         store_reply docClient (client_op call) req = (None, v).
Proof.
  destruct (invoke_ends rt docClient absentCondition call w)
    as [(Hnone & _ & r & Hr & _) | (req & Hreq & _ & _ & Hout)].
  - split.
    + rewrite Hr. discriminate.
    + intros (req & Hreq & _). rewrite Hnone in Hreq. by apply one_more_call in Hreq.
  - split.
    + intros Hresolved. exists req. split; [done|].
      destruct (store_reply docClient _ req) as [[err|] data].
      * destruct Hout as (e & He & _). rewrite He in Hresolved. discriminate.
      * rewrite Hout in Hresolved. by injection Hresolved as ->.
    + intros (req' & Hreq' & Hreply). rewrite Hreq in Hreq'.
      apply app_inv_head in Hreq'. injection Hreq' as <-.
      by rewrite Hreply in Hout.
Qed.

(** X15: the promise of an operation is always settled: no path of an
    executor or of a callback ends without [resolve] or [reject]. *)
Theorem promise_always_settled (rt : Runtime) (docClient : DocClient)
    (absentCondition : string) (call : Invocation) (w : World) :
  is_Some (settlement (invoke rt docClient absentCondition call w)).
Proof.
  destruct (invoke_ends rt docClient absentCondition call w)
    as [(_ & _ & r & Hr & _) | (req & _ & _ & _ & Hout)]; [by rewrite Hr|].
  destruct (store_reply docClient _ req) as [[err|] data].
  - destruct Hout as (e & He & _). by rewrite He.
  - by rewrite Hout.
Qed.

(** X16: the error codes of the five operations are [DBError], [ItemExists]
    (from [putItem] only), [InvalidData] and
    [DBError.ConditionalCheckFailedException] (from [updateItem] only); a
    rejection has one of them or none. *)
Theorem rejection_codes_by_operation (rt : Runtime) (docClient : DocClient)
    (absentCondition : string) (call : Invocation) (w : World) :
  match rejection_code (invoke rt docClient absentCondition call w) with
  | None => True
  | Some c =>
      c = "DBError" ∨
      (c = "ItemExists" ∧ client_op call = ClientPut) ∨
      (c = "InvalidData" ∧ client_op call = ClientUpdate) ∨
      (c = "DBError.ConditionalCheckFailedException" ∧ client_op call = ClientUpdate)
  end.
Proof.
  destruct (invoke_ends rt docClient absentCondition call w)
    as [Hearly | (req & _ & _ & _ & Hout)].
  - destruct (decide (client_op call = ClientUpdate)) as [Hupdate|Hother].
    + destruct Hearly as (_ & _ & r & Hr & Hreason).
      unfold rejection_code. rewrite Hr. destruct r as [e|e]; [|done].
      destruct Hreason as (_ & [[-> _] | [-> _]]); [done|]. auto.
    + by destruct (early_without_code rt docClient absentCondition call w Hother Hearly)
        as [-> _].
  - unfold rejection_code.
    destruct (store_reply docClient _ req) as [[err|] data].
    + destruct Hout as (e & -> & -> & _). unfold store_error_code.
      destruct (client_op call); try destruct (bool_decide _); auto.
    + by rewrite Hout.
Qed.

(** Closes a case of an executor that has ended: its error object, if
    any, echoes the arguments. *)
Ltac echo_exit st :=
  subst st;
  let He := fresh "He" in
  intros ? He; simpl in He;
  first [discriminate He | injection He as <-; reflexivity].

Ltac echo_length rt H v st :=
  exec_step H;
  let E := fresh "Hlen" in
  destruct (length_test rt v) as [[|]| |?] eqn:E;
  [ exec_step H; echo_exit st
  | exec_step H
  | exfalso; exact (length_test_not_returned rt v E)
  | cbv beta iota in H; echo_exit st ].

Ltac echo_presence rt H v st :=
  exec_step H;
  let E := fresh "Hpresent" in
  destruct (presence_test rt v) as [[|]| |?] eqn:E;
  [ exec_step H; echo_exit st
  | exec_step H
  | exfalso; exact (presence_test_not_returned rt v E)
  | cbv beta iota in H; echo_exit st ].

Lemma putItem_echo (rt : Runtime) (docClient : DocClient) (absentCondition : string)
    (item tableName overwrite : value) (w : World) (e : ErrorObject) :
  settlement (putItem rt docClient absentCondition item tableName overwrite w)
    = Some (Rejected (ErrorObj e)) →
  calledWith e = Some (echoed_arguments (CallPutItem item tableName overwrite)).
Proof.
  revert e. set (st := putItem _ _ _ _ _ _ _). exec_start st Hst.
  unfold putItem, new_Promise, docClient_put in Hst.
  echo_length rt Hst item st.
  echo_length rt Hst tableName st.
  destruct (clientPut docClient _) as [[err|] data] in Hst;
    [destruct (bool_decide (err_code err = _)) eqn:Hcode in Hst|]; echo_exit st.
Qed.

Lemma deleteItem_echo (rt : Runtime) (docClient : DocClient)
    (itemKey tableName deleteCondition deleteParameters : value) (w : World)
    (e : ErrorObject) :
  settlement (deleteItem rt docClient itemKey tableName deleteCondition
                deleteParameters w) = Some (Rejected (ErrorObj e)) →
  calledWith e
    = Some (echoed_arguments
              (CallDeleteItem itemKey tableName deleteCondition deleteParameters)).
Proof.
  revert e. set (st := deleteItem _ _ _ _ _ _ _). exec_start st Hst.
  unfold deleteItem, new_Promise, docClient_delete in Hst.
  echo_length rt Hst itemKey st.
  echo_length rt Hst tableName st.
  echo_length rt Hst deleteCondition st.
  echo_length rt Hst deleteParameters st.
  destruct (clientDelete docClient _) as [[err|] data] in Hst; echo_exit st.
Qed.

Lemma getItem_echo (rt : Runtime) (docClient : DocClient)
    (itemKey tableName : value) (w : World) (e : ErrorObject) :
  settlement (getItem rt docClient itemKey tableName w) = Some (Rejected (ErrorObj e)) →
  calledWith e = Some (echoed_arguments (CallGetItem itemKey tableName)).
Proof.
  revert e. set (st := getItem _ _ _ _ _). exec_start st Hst.
  unfold getItem, new_Promise, docClient_get in Hst.
  echo_length rt Hst itemKey st.
  echo_length rt Hst tableName st.
  destruct (clientGet docClient _) as [[err|] data] in Hst; echo_exit st.
Qed.

Lemma query_echo (rt : Runtime) (docClient : DocClient)
    (conditionExpression expressionAttributeNames expressionAttributeValues
       tableName indexName : value) (w : World) (e : ErrorObject) :
  settlement (query rt docClient conditionExpression expressionAttributeNames
                expressionAttributeValues tableName indexName w)
    = Some (Rejected (ErrorObj e)) →
  calledWith e
    = Some (echoed_arguments
              (CallQuery conditionExpression expressionAttributeNames
                 expressionAttributeValues tableName indexName)).
Proof.
  revert e. set (st := query _ _ _ _ _ _ _ _). exec_start st Hst.
  unfold query, new_Promise, docClient_query in Hst.
  echo_length rt Hst conditionExpression st.
  echo_length rt Hst tableName st.
  echo_length rt Hst expressionAttributeNames st.
  echo_length rt Hst expressionAttributeValues st.
  exec_step Hst.
  destruct (outcome (length_gt_zero rt _)) as [supplied| |e0] eqn:Hindex;
    cbv beta iota in Hst.
  - exec_step Hst.
    destruct (clientQuery docClient _) as [[err|] data] in Hst; echo_exit st.
  - by apply length_gt_zero_not_returned in Hindex.
  - echo_exit st.
Qed.

Lemma updateItem_echo (rt : Runtime) (docClient : DocClient)
    (itemKey tableName updateParams conditionExpression : value) (w : World)
    (e : ErrorObject) :
  settlement (updateItem rt docClient itemKey tableName updateParams
                conditionExpression w) = Some (Rejected (ErrorObj e)) →
  calledWith e
    = Some (echoed_arguments
              (CallUpdateItem itemKey tableName updateParams conditionExpression)).
Proof.
  revert e. set (st := updateItem _ _ _ _ _ _ _). exec_start st Hst.
  unfold updateItem, new_Promise, docClient_update in Hst.
  echo_presence rt Hst itemKey st.
  echo_presence rt Hst updateParams st.
  echo_presence rt Hst tableName st.
  rewrite exec_bind_eq in Hst.
  match type of Hst with
  | context [update_loop rt ?eo ?en ?ue ?eav ?s0] =>
      pose proof (update_loop_ends rt eo en ue eav w) as Hloop;
      destruct (update_loop rt eo en ue eav s0) as [[[ue' eav']| |e0] st1]
  end; subst st1.
  - exec_step Hst.
    destruct (outcome (length_gt_zero rt _)) as [[|]| |e0] eqn:Hextra;
      cbv beta iota in Hst.
    + rewrite exec_bind_eq in Hst. exec_step Hst.
      destruct (outcome (to_string rt _)) as [extra| |e0] eqn:Hstr;
        cbv beta iota in Hst.
      * exec_step Hst.
        destruct (clientUpdate docClient _) as [[err|] data] in Hst;
          [destruct (bool_decide (err_code err = _)) eqn:Hcode in Hst|];
          echo_exit st.
      * by apply to_string_not_returned in Hstr.
      * echo_exit st.
    + rewrite exec_bind_eq in Hst. cbv beta iota delta [mret Exec_ret] in Hst.
      exec_step Hst.
      destruct (clientUpdate docClient _) as [[err|] data] in Hst;
        [destruct (bool_decide (err_code err = _)) eqn:Hcode in Hst|];
        echo_exit st.
    + by apply length_gt_zero_not_returned in Hextra.
    + echo_exit st.
  - echo_exit st.
  - cbv beta iota in Hst. echo_exit st.
Qed.

(** X17: every error object an operation rejects with carries
    [calledWith], and it holds the arguments of the call by name: the item
    or key, the table name and the other mandatory arguments as passed,
    [overwrite] and [conditionExpression] after their defaults; [query]
    does not echo its index name. *)
Theorem error_objects_echo_arguments (rt : Runtime) (docClient : DocClient)
    (absentCondition : string) (call : Invocation) (w : World) (e : ErrorObject) :
  settlement (invoke rt docClient absentCondition call w)
    = Some (Rejected (ErrorObj e)) →
  calledWith e = Some (echoed_arguments call).
Proof.
  destruct call; simpl invoke.
  - apply putItem_echo.
  - apply updateItem_echo.
  - apply deleteItem_echo.
  - apply getItem_echo.
  - apply query_echo.
Qed.

(** X18: no operation changes the configured region, and none prints on
    the console except [updateItem] when it rejects with [InvalidData]. *)
Theorem operations_keep_region_and_console (rt : Runtime) (docClient : DocClient)
    (absentCondition : string) (call : Invocation) (w : World) :
  awsRegion (world (invoke rt docClient absentCondition call w)) = awsRegion w ∧
  (console (world (invoke rt docClient absentCondition call w)) = console w ∨
   (client_op call = ClientUpdate ∧
    rejection_code (invoke rt docClient absentCondition call w) = Some "InvalidData" ∧
    console (world (invoke rt docClient absentCondition call w))
      = console w ++ ["Unable to update Item, passed parameters where undefined."])).
Proof.
  destruct (invoke_ends rt docClient absentCondition call w)
    as [Hearly | (req & _ & Hregion & Hconsole & _)]; [|auto].
  destruct (decide (client_op call = ClientUpdate)) as [Hupdate|Hother].
  - destruct Hearly as (_ & Hregion & r & Hr & Hreason). split; [done|].
    unfold rejection_code. rewrite Hr. destruct r as [e|e]; [|auto].
    destruct Hreason as (_ & [[_ Hconsole] | [Hcode Hconsole]]); auto.
  - pose proof Hearly as (_ & Hregion & _).
    destruct (early_without_code rt docClient absentCondition call w Hother Hearly)
      as [_ Hconsole]. auto.
Qed.


Lemma error_objects_echo_arguments_witness :
  ∃ e, settlement (invoke plainRuntime (constClient (Some throttled, Null))
                     "attribute_not_exists(MachineID)"
                     (CallQuery (Str "#id = :id") (Obj [("#id", Str "MachineID")])
                        (Obj [(":id", Num 22)]) (Str "Machines") (Str "ByOperator"))
                     initialWorld) = Some (Rejected (ErrorObj e)) ∧
       calledWith e
         = Some [("conditionExpression", Str "#id = :id"); ("tableName", Str "Machines");
                 ("expressionAttributeNames", Obj [("#id", Str "MachineID")]);
                 ("expressionAttributeValues", Obj [(":id", Num 22)])].
Proof.
  eexists. split; [reflexivity|].
  exact (error_objects_echo_arguments plainRuntime (constClient (Some throttled, Null))
           "attribute_not_exists(MachineID)"
           (CallQuery (Str "#id = :id") (Obj [("#id", Str "MachineID")])
              (Obj [(":id", Num 22)]) (Str "Machines") (Str "ByOperator"))
           initialWorld _ eq_refl).
Defined.

(** ** updateItem in the first revision *)

Lemma concat_no_separator_cons (x : string) (l : list string) :
  String.concat "" (x :: l) = x +:+ String.concat "" l.
Proof. destruct l; [by rewrite string_app_nil_r | reflexivity]. Qed.

Lemma legacy_update_loop_run (rt : Runtime) (g : nat → string)
    (params : list value) (fields : list (string * value))
    (updateExpression : string) (obj : list (string * value)) (st : PState) :
  Forall2 (legacy_update_field rt) params fields →
  FirstRevision.update_loop rt (imap (λ i x, (g i, x)) params) updateExpression obj st
  = (Normal (updateExpression +:+
               String.concat "" ((λ name, ", " +:+ clause name) <$> fields.*1),
             set_values fields obj), st).
Proof.
  intros Hfields. revert g updateExpression obj.
  induction Hfields as [|param [name v] params fields Hfield _ IH];
    intros g ue obj.
  - simpl. by rewrite string_app_nil_r.
  - destruct Hfield as (fieldName & Hname & Hstr & Hval). simpl in Hstr, Hval.
    rewrite imap_cons. cbn [FirstRevision.update_loop].
    rewrite exec_bind_eq, get_prop_run, Hname. cbv beta iota.
    rewrite exec_bind_eq, to_string_run, Hstr. cbv beta iota.
    rewrite exec_bind_eq, get_prop_run, Hval. cbv beta iota.
    rewrite (IH (g ∘ S)). do 2 f_equal.
    cbn [fmap list_fmap fst]. rewrite concat_no_separator_cons.
    unfold FirstRevision.index_is_not_number, clause.
    by rewrite !string_app_assoc.
Qed.

(** The two statements [len = v.length; supplied = len >= 0] at the head
    of a sequence. *)
Lemma length_ge_zero_step {S B} (rt : Runtime) (v : value) (k : bool → Exec S B)
    (s : S) (supplied : bool) :
  length_ge_zero_test rt v = Normal supplied →
  (len ← get_prop v "length"; supplied ← ge_zero rt len; k supplied) s = k supplied s.
Proof.
  unfold length_ge_zero_test, outcome.
  rewrite !exec_bind_eq, !get_prop_run.
  destruct (outcome (get_prop v "length")) as [len| |e]; [|done|done].
  cbv beta iota. unfold ge_zero. rewrite !exec_bind_eq. unfold to_number.
  destruct len; simpl; try (by intros [= <-]);
    destruct (rt_ToNumber rt _) as [[]|]; simpl; try done; by intros [= <-].
Qed.

Lemma FirstRevision_updateItem_run (rt : Runtime) (docClient : DocClient)
    (stringify : AWSError → string) (itemKey tableName conditionExpression : value)
    (params : list value) (fields : list (string * value)) (supplied : bool)
    (w : World) :
  non_empty rt itemKey → non_empty rt tableName →
  params ≠ [] →
  Forall2 (legacy_update_field rt) params fields →
  length_ge_zero_test rt (default_param (Obj []) conditionExpression) = Normal supplied →
  FirstRevision.updateItem rt docClient stringify itemKey tableName (Arr params)
    conditionExpression w =
  let errorObj := [("updateParams", Arr params); ("tableName", tableName);
                   ("itemKey", itemKey);
                   ("conditionExpression", default_param (Obj []) conditionExpression)] in
  let req := legacy_update_request itemKey tableName
               (legacy_set_expression fields.*1) (set_values fields [])
               (if supplied then Some (default_param (Obj []) conditionExpression)
                else None) in
  match clientUpdate docClient req with
  | (None, data) =>
      {| settlement := Some (Resolved data); world := with_call w ClientUpdate req |}
  | (Some err, _) =>
      {| settlement :=
           Some (Rejected (ErrorObj
             (store_error "Update failed on dynamoDB" err errorObj)));
         world :=
           {| awsRegion := awsRegion w;
              console := console w ++
                ["Unable to update item. Error JSON: " +:+ stringify err];
              storeCalls := storeCalls w ++ [(ClientUpdate, req)] |} |}
  end.
Proof.
  intros Hkey Htable Hne Hfields Hcond.
  assert (Hparams : non_empty rt (Arr params)) by (by destruct params).
  set (st := FirstRevision.updateItem _ _ _ _ _ _ _ _). exec_start st Hst.
  unfold FirstRevision.updateItem, new_Promise, docClient_update in Hst.
  exec_step Hst. rewrite Hkey in Hst. exec_step Hst.
  exec_step Hst. rewrite Hparams in Hst. exec_step Hst.
  exec_step Hst. rewrite Htable in Hst. exec_step Hst.
  rewrite exec_bind_eq in Hst.
  change (for_in (Arr params)) with (imap (λ i x, (pretty i, x)) params) in Hst.
  rewrite (legacy_update_loop_run rt pretty params fields) in Hst by done.
  cbv beta iota in Hst.
  fold (legacy_set_expression fields.*1) in Hst.
  rewrite (length_ge_zero_step rt _ _ _ supplied Hcond) in Hst.
  exec_step Hst. cbv zeta.
  assert (Hreq :
    (if supplied
     then set_ConditionExpression (default_param (Obj []) conditionExpression)
            (set_UpdateExpression (legacy_set_expression fields.*1)
               (set_ExpressionAttributeValues (Obj (set_values fields []))
                  (set_TableName tableName (set_Key itemKey empty_request))))
     else set_UpdateExpression (legacy_set_expression fields.*1)
            (set_ExpressionAttributeValues (Obj (set_values fields []))
               (set_TableName tableName (set_Key itemKey empty_request))))
    = legacy_update_request itemKey tableName (legacy_set_expression fields.*1)
        (set_values fields [])
        (if supplied then Some (default_param (Obj []) conditionExpression) else None))
    by (by destruct supplied).
  rewrite Hreq in Hst.
  destruct (clientUpdate docClient _) as [[err|] data]; by subst st.
Qed.

Lemma length_ge_zero_Str (rt : Runtime) (s : string) :
  length_ge_zero_test rt (Str s) = Normal true.
Proof. by destruct s. Qed.

Lemma FirstRevision_updateItem_requests (rt : Runtime) (docClient : DocClient)
    (stringify : AWSError → string) (itemKey tableName conditionExpression : value)
    (params : list value) (fields : list (string * value)) (supplied : bool)
    (w : World) :
  non_empty rt itemKey → non_empty rt tableName →
  params ≠ [] →
  Forall2 (legacy_update_field rt) params fields →
  length_ge_zero_test rt (default_param (Obj []) conditionExpression) = Normal supplied →
  requests (FirstRevision.updateItem rt docClient stringify itemKey tableName
              (Arr params) conditionExpression w)
  = storeCalls w ++
    [(ClientUpdate,
      legacy_update_request itemKey tableName (legacy_set_expression fields.*1)
        (set_values fields [])
        (if supplied then Some (default_param (Obj []) conditionExpression) else None))].
Proof.
  intros Hkey Htable Hne Hfields Hcond.
  rewrite (FirstRevision_updateItem_run rt docClient stringify itemKey tableName
             conditionExpression params fields supplied w) by done.
  cbv zeta. by destruct (clientUpdate docClient _) as [[err|] data].
Qed.

(** X19: in the first revision, [updateItem] puts a comma before every
    clause, the first one too (the index, a string, is compared with the
    number 0): for a non-empty array of fields the expression it sends is
    [set, <name1> = :<name1>, <name2> = :<name2>, ...]. *)
Theorem FirstRevision_updateItem_comma_after_set (rt : Runtime) (docClient : DocClient)
    (stringify : AWSError → string) (itemKey tableName conditionExpression : value)
    (params : list value) (fields : list (string * value)) (supplied : bool)
    (w : World) :
  non_empty rt itemKey → non_empty rt tableName →
  params ≠ [] →
  Forall2 (legacy_update_field rt) params fields →
  length_ge_zero_test rt (default_param (Obj []) conditionExpression) = Normal supplied →
  ∃ req rest,
    requests (FirstRevision.updateItem rt docClient stringify itemKey tableName
                (Arr params) conditionExpression w)
      = storeCalls w ++ [(ClientUpdate, req)] ∧
    UpdateExpression req
      = Some ("set" +:+ String.concat "" ((λ name, ", " +:+ clause name) <$> fields.*1)) ∧
    UpdateExpression req = Some ("set, " +:+ rest).
Proof.
  intros Hkey Htable Hne Hfields Hcond.
  assert (Hnonempty : fields ≠ []).
  { intros ->. by apply Forall2_nil_inv_r in Hfields. }
  destruct fields as [|[name v] fields]; [done|].
  eexists _, (clause name +:+
              String.concat "" ((λ name, ", " +:+ clause name) <$> fields.*1)).
  split; [by apply FirstRevision_updateItem_requests|].
  split; [reflexivity|].
  simpl. unfold legacy_set_expression. cbn [fmap list_fmap fst].
  by rewrite concat_no_separator_cons.
Qed.

Lemma FirstRevision_updateItem_comma_after_set_witness :
  ∃ req,
    requests (FirstRevision.updateItem plainRuntime (constClient (None, Obj [])) printCode
                sampleKey (Str "Machines") (Arr legacyFields) Undefined initialWorld)
      = [(ClientUpdate, req)] ∧
    UpdateExpression req
      = Some "set, MachinePPM = :MachinePPM, Operator = :Operator".
Proof.
  destruct (FirstRevision_updateItem_comma_after_set plainRuntime
              (constClient (None, Obj [])) printCode sampleKey (Str "Machines") Undefined
              legacyFields [("MachinePPM", Num 71); ("Operator", Str "R. Curran")]
              false initialWorld) as (req & rest & Hreq & Hexpr & _).
  - reflexivity.
  - reflexivity.
  - discriminate.
  - repeat constructor; eexists; repeat split; reflexivity.
  - reflexivity.
  - exists req. split; [exact Hreq | exact Hexpr].
Defined.

(** X20: in the first revision, [updateItem] adds no condition of its own:
    without a fourth argument (the default is an empty object, which has no
    length) the request has no [ConditionExpression], so nothing requires
    the item to exist; a string is attached as it was passed, the empty
    string too. *)
Theorem FirstRevision_updateItem_condition_as_passed (rt : Runtime)
    (docClient : DocClient) (stringify : AWSError → string)
    (itemKey tableName : value) (params : list value)
    (fields : list (string * value)) (w : World) :
  non_empty rt itemKey → non_empty rt tableName →
  params ≠ [] →
  Forall2 (legacy_update_field rt) params fields →
  (∃ req, requests (FirstRevision.updateItem rt docClient stringify itemKey tableName
                      (Arr params) Undefined w)
            = storeCalls w ++ [(ClientUpdate, req)] ∧
          ConditionExpression req = None) ∧
  (∀ condition,
     ∃ req, requests (FirstRevision.updateItem rt docClient stringify itemKey tableName
                        (Arr params) (Str condition) w)
              = storeCalls w ++ [(ClientUpdate, req)] ∧
            ConditionExpression req = Some (Str condition)).
Proof.
  intros Hkey Htable Hne Hfields. split.
  - eexists. split.
    + by apply (FirstRevision_updateItem_requests rt docClient stringify itemKey
                  tableName Undefined params fields false).
    + reflexivity.
  - intros condition. eexists. split.
    + apply (FirstRevision_updateItem_requests rt docClient stringify itemKey
               tableName (Str condition) params fields true); try done.
      apply length_ge_zero_Str.
    + reflexivity.
Qed.

Lemma FirstRevision_updateItem_condition_as_passed_witness :
  (∃ req, requests (FirstRevision.updateItem plainRuntime (constClient (None, Obj []))
                      printCode sampleKey (Str "Machines") (Arr legacyFields)
                      Undefined initialWorld) = [(ClientUpdate, req)] ∧
          ConditionExpression req = None) ∧
  (∃ req, requests (FirstRevision.updateItem plainRuntime (constClient (None, Obj []))
                      printCode sampleKey (Str "Machines") (Arr legacyFields)
                      (Str "") initialWorld) = [(ClientUpdate, req)] ∧
          ConditionExpression req = Some (Str "")).
Proof.
  destruct (FirstRevision_updateItem_condition_as_passed plainRuntime
              (constClient (None, Obj [])) printCode sampleKey (Str "Machines")
              legacyFields [("MachinePPM", Num 71); ("Operator", Str "R. Curran")]
              initialWorld) as [Hdefault Hstring].
  - reflexivity.
  - reflexivity.
  - discriminate.
  - repeat constructor; eexists; repeat split; reflexivity.
  - split; [exact Hdefault | exact (Hstring "")].
Defined.

(** X21: in the first revision, [updateItem] prints every error of the
    store on the console and rejects with code [DBError]: a failed
    condition is not told apart.  A success resolves with the store's
    response and prints nothing. *)
Theorem FirstRevision_updateItem_errors_are_DBError (rt : Runtime)
    (docClient : DocClient) (stringify : AWSError → string)
    (itemKey tableName conditionExpression : value) (params : list value)
    (fields : list (string * value)) (supplied : bool) (w : World) :
  non_empty rt itemKey → non_empty rt tableName →
  params ≠ [] →
  Forall2 (legacy_update_field rt) params fields →
  length_ge_zero_test rt (default_param (Obj []) conditionExpression) = Normal supplied →
  match clientUpdate docClient
          (legacy_update_request itemKey tableName (legacy_set_expression fields.*1)
             (set_values fields [])
             (if supplied then Some (default_param (Obj []) conditionExpression)
              else None)) with
  | (None, data) =>
      settlement (FirstRevision.updateItem rt docClient stringify itemKey tableName
                    (Arr params) conditionExpression w) = Some (Resolved data) ∧
      console (world (FirstRevision.updateItem rt docClient stringify itemKey tableName
                        (Arr params) conditionExpression w)) = console w
  | (Some err, _) =>
      rejection_code (FirstRevision.updateItem rt docClient stringify itemKey tableName
                        (Arr params) conditionExpression w) = Some "DBError" ∧
      console (world (FirstRevision.updateItem rt docClient stringify itemKey tableName
                        (Arr params) conditionExpression w))
        = console w ++ ["Unable to update item. Error JSON: " +:+ stringify err]
  end.
Proof.
  intros Hkey Htable Hne Hfields Hcond.
  rewrite (FirstRevision_updateItem_run rt docClient stringify itemKey tableName
             conditionExpression params fields supplied w) by done.
  cbv zeta. by destruct (clientUpdate docClient _) as [[err|] data].
Qed.

Lemma FirstRevision_updateItem_errors_are_DBError_witness :
  rejection_code (FirstRevision.updateItem plainRuntime
                    (constClient (Some conditionFailed, Null)) printCode sampleKey
                    (Str "Machines") (Arr legacyFields) (Str "attribute_exists(MachineID)")
                    initialWorld) = Some "DBError" ∧
  console (world (FirstRevision.updateItem plainRuntime
                    (constClient (Some conditionFailed, Null)) printCode sampleKey
                    (Str "Machines") (Arr legacyFields) (Str "attribute_exists(MachineID)")
                    initialWorld))
    = ["Unable to update item. Error JSON: {code: ConditionalCheckFailedException}"].
Proof.
  exact (FirstRevision_updateItem_errors_are_DBError plainRuntime
           (constClient (Some conditionFailed, Null)) printCode sampleKey (Str "Machines")
           (Str "attribute_exists(MachineID)") legacyFields
           [("MachinePPM", Num 71); ("Operator", Str "R. Curran")] true initialWorld
           eq_refl eq_refl ltac:(discriminate)
           ltac:(repeat constructor; eexists; repeat split; reflexivity) eq_refl).
Defined.

(** ** query in the second revision *)

(** X22: in the second revision, [query] names an index in every request
    that is given a string: the test is [indexName.length >= 0], so the
    empty string, and with it the default of a call without index name, is
    sent as [IndexName]. *)
Theorem SecondRevision_query_always_names_index (rt : Runtime) (docClient : DocClient)
    (conditionExpression expressionAttributeNames expressionAttributeValues
       tableName : value) (indexName : string) (w : World) :
  non_empty rt conditionExpression → non_empty rt tableName →
  non_empty rt expressionAttributeNames → non_empty rt expressionAttributeValues →
  requests (SecondRevision.query rt docClient conditionExpression
              expressionAttributeNames expressionAttributeValues tableName
              (Str indexName) w)
    = storeCalls w ++
      [(ClientQuery,
        query_request conditionExpression expressionAttributeNames
          expressionAttributeValues tableName (Some (Str indexName)))] ∧
  requests (SecondRevision.query rt docClient conditionExpression
              expressionAttributeNames expressionAttributeValues tableName Undefined w)
    = storeCalls w ++
      [(ClientQuery,
        query_request conditionExpression expressionAttributeNames
          expressionAttributeValues tableName (Some (Str "")))].
Proof.
  intros Hcondition Htable Hnames Hvalues.
  assert (Hrun : ∀ name indexArg, default_param (Str "") indexArg = Str name →
    requests (SecondRevision.query rt docClient conditionExpression
                expressionAttributeNames expressionAttributeValues tableName indexArg w)
    = storeCalls w ++
      [(ClientQuery,
        query_request conditionExpression expressionAttributeNames
          expressionAttributeValues tableName (Some (Str name)))]).
  { intros name indexArg Hdefault.
    set (st := SecondRevision.query _ _ _ _ _ _ _ _). exec_start st Hst.
    unfold SecondRevision.query, new_Promise, docClient_query in Hst.
    rewrite Hdefault in Hst.
    exec_step Hst. rewrite Hcondition in Hst. exec_step Hst.
    exec_step Hst. rewrite Htable in Hst. exec_step Hst.
    exec_step Hst. rewrite Hnames in Hst. exec_step Hst.
    exec_step Hst. rewrite Hvalues in Hst. exec_step Hst.
    rewrite (length_ge_zero_step rt _ _ _ true (length_ge_zero_Str rt name)) in Hst.
    exec_step Hst.
    destruct (clientQuery docClient _) as [[err|] data]; by subst st. }
  split; by apply Hrun.
Qed.

Lemma SecondRevision_query_always_names_index_witness :
  ∃ req,
    requests (SecondRevision.query plainRuntime (constClient (None, Obj []))
                (Str "#id = :id") (Obj [("#id", Str "MachineID")]) (Obj [(":id", Num 22)])
                (Str "Machines") Undefined initialWorld) = [(ClientQuery, req)] ∧
    IndexName req = Some (Str "").
Proof.
  eexists. split.
  - exact (proj2 (SecondRevision_query_always_names_index plainRuntime
                    (constClient (None, Obj [])) (Str "#id = :id")
                    (Obj [("#id", Str "MachineID")]) (Obj [(":id", Num 22)])
                    (Str "Machines") "ByOperator" initialWorld
                    eq_refl eq_refl eq_refl eq_refl)).
  - reflexivity.
Defined.

(** ** dynamoTest.js *)

(** X23: the script asks the store once, for the key [HashID = 4666fsffr]
    in [SomeTable]; it prints "Got it" and the store's response when the
    store reports no error, and "There is an error" and the [DBError]
    object otherwise. *)
Theorem dynamoTest_prints_outcome (rt : Runtime) (docClient : DocClient) (w : World) :
  snd (dynamoTest rt docClient w) = with_call w ClientGet scriptRequest ∧
  fst (dynamoTest rt docClient w) =
    match clientGet docClient scriptRequest with
    | (None, data) => [PrintedText "Got it"; PrintedValue data]
    | (Some err, _) =>
        [PrintedText "There is an error";
         PrintedReason (ErrorObj (store_error "Get failed on dynamoDB" err
           [("itemKey", Obj [("HashID", Str "4666fsffr")]);
            ("tableName", Str "SomeTable")]))]
    end.
Proof.
  unfold dynamoTest. cbn [fst snd].
  set (st := getItem _ _ _ _ _). exec_start st Hst.
  unfold getItem, new_Promise, docClient_get in Hst.
  assert (Hkey : non_empty rt (Obj [("HashID", Str "4666fsffr")])) by reflexivity.
  assert (Htable : non_empty rt (Str "SomeTable")) by reflexivity.
  exec_step Hst. rewrite Hkey in Hst. exec_step Hst.
  exec_step Hst. rewrite Htable in Hst. exec_step Hst.
  change (set_TableName (Str "SomeTable")
            (set_Key (Obj [("HashID", Str "4666fsffr")]) empty_request))
    with scriptRequest in Hst.
  destruct (clientGet docClient scriptRequest) as [[err|] data]; by subst st.
Qed.
